(** * Video-sharing backend: the video controller, the request wrapper and
      the user model.

    The file follows the sources:
    - [Js]: the JavaScript values that reach [getVideos] through the query
      string, with [ToString], truthiness and the global [parseInt];
    - the documents of the four collections, the database and the object
      storage, and the monad of the handlers (database state and thrown
      errors);
    - [Video] and [View]: the model queries the controller calls;
    - [Handler]: the nine async functions of the video controller;
    - [asyncHandler], and [VideoController] with the wrapped handlers;
    - [UserModel]: the [pre("save")] hook and [isPasswordCorrect];
    - [Bcrypt]: the hashing library the user model calls, as its
      documentation describes it.

    Taken as given: identifiers arrive already cast to object ids; the
    database answers every query (it does not go down in the middle of a
    request); requests are served one after the other.  What the object
    storage, the pagination plugin and the clock answer during a request is
    an input of the handler ([Env]). *)

From Stdlib Require Import String Ascii ZArith NArith List Bool Lia.
From stdpp Require Import base option list gmap sets strings.

Local Open Scope N_scope.

(* ===================================================================== *)
(** ** JavaScript values of the query string                              *)
(* ===================================================================== *)

Module Js.

(** A JavaScript string is a sequence of UTF-16 code units. *)
Definition str := list N.

Definition lit (s : string) : str :=
  (fun a => N_of_ascii a) <$> list_ascii_of_string s.

(** What the query-string parser hands to a handler under one key:
    nothing, a string, an array (a repeated key) or a nested object. *)
#[warnings="-register-all"]
Inductive value :=
| Undefined
| Str (s : str)
| Arr (l : list value)
| Obj.

(** [ToString]: arrays join their elements with a comma, an undefined
    element printing as the empty string. *)
Fixpoint ToString (v : value) : str :=
  match v with
  | Undefined => lit "undefined"
  | Str s => s
  | Arr l =>
      (fix join (l : list value) : str :=
         match l with
         | [] => []
         | x :: r =>
             let e := match x with Undefined => [] | _ => ToString x end in
             match r with
             | [] => e
             | _ => e ++ 44 :: join r
             end
         end) l
  | Obj => lit "[object Object]"
  end.

(** [ToBoolean] on these values: only [undefined] and the empty string
    are falsy. *)
Definition truthy (v : value) : bool :=
  match v with
  | Undefined => false
  | Str [] => false
  | _ => true
  end.

(** Strict equality with a string literal. *)
Definition strict_eq_lit (v : value) (s : string) : bool :=
  match v with
  | Str u => bool_decide (u = lit s)
  | _ => false
  end.

(** The result of [parseInt]: [NaN] or an integer.  The sign of a zero
    and the rounding of magnitudes beyond 2^53 are not kept: neither
    changes whether the number is falsy. *)
Inductive number :=
| NaN
| Num (z : Z).

(** WhiteSpace and LineTerminator code units, skipped by [parseInt]. *)
Definition white_space (c : N) : bool :=
  bool_decide (c ∈ [0x9; 0xA; 0xB; 0xC; 0xD; 0x20; 0xA0; 0x1680;
                    0x2028; 0x2029; 0x202F; 0x205F; 0x3000; 0xFEFF])
  || ((0x2000 <=? c) && (c <=? 0x200A)).

Fixpoint trim_start (s : str) : str :=
  match s with
  | c :: r => if white_space c then trim_start r else s
  | [] => []
  end.

(** The value of a code unit as a digit: [0-9], [a-z], [A-Z]. *)
Definition digit_value (c : N) : option N :=
  if (48 <=? c) && (c <=? 57) then Some (c - 48)
  else if (97 <=? c) && (c <=? 122) then Some (c - 87)
  else if (65 <=? c) && (c <=? 90) then Some (c - 55)
  else None.

Definition radix_digit (R c : N) : option N :=
  match digit_value c with
  | Some d => if d <? R then Some d else None
  | None => None
  end.

(** The longest prefix of radix-[R] digits. *)
Fixpoint take_digits (R : N) (s : str) : list N :=
  match s with
  | c :: r =>
      match radix_digit R c with
      | Some d => d :: take_digits R r
      | None => []
      end
  | [] => []
  end.

Definition digits_value (R : N) (ds : list N) : N :=
  fold_left (fun acc d => acc * R + d) ds 0.

(** A leading [-] or [+] is taken as the sign. *)
Definition split_sign (s : str) : Z * str :=
  match s with
  | c :: r =>
      if c =? 45 then ((-1)%Z, r)
      else if c =? 43 then (1%Z, r)
      else (1%Z, s)
  | [] => (1%Z, s)
  end.

(** A leading [0x] or [0X] is stripped and selects radix 16. *)
Definition split_radix (s : str) : N * str :=
  match s with
  | c :: x :: r =>
      if (c =? 48) && ((x =? 120) || (x =? 88)) then (16, r) else (10, s)
  | _ => (10, s)
  end.

(** [parseInt(v)] with no radix argument: white space is skipped, the sign
    and the radix prefix are taken, and the longest prefix of digits is
    read; no digit at all gives [NaN]. *)
Definition parseInt (v : value) : number :=
  let '(sign, S1) := split_sign (trim_start (ToString v)) in
  let '(R, S2) := split_radix S1 in
  match take_digits R S2 with
  | [] => NaN
  | ds => Num (sign * Z.of_N (digits_value R ds))
  end.

(** [n || d] for a number [n] and a non-zero default [d]. *)
Definition or_default (n : number) (d : Z) : Z :=
  match n with
  | NaN => d
  | Num 0%Z => d
  | Num z => z
  end.

(** Arrays are objects: every array, the empty one too, is truthy. *)
Definition truthy_array {A} (l : list A) : bool := true.

(** [v || d] on property keys: the key is the string of [v] when [v] is
    truthy. *)
Definition key_or (v : value) (d : string) : str :=
  if truthy v then ToString v else lit d.

End Js.

(* ===================================================================== *)
(** ** Documents and the database                                         *)
(* ===================================================================== *)

(** Object identifiers, already cast: a route or query parameter that
    does not cast to an identifier never reaches the code modelled here. *)
Definition Id := N.

Module Image.
Record t := { url : string; publicId : string }.
End Image.

Module UserDoc.
Record t := {
  username : string;
  email : string;
  fullname : string;
  avatar : Image.t;
  coverImage : option Image.t;
  password : string;
  refreshToken : option string;
}.
End UserDoc.

Module SubscriptionDoc.
Record t := { subscriber : Id; channel : Id }.
End SubscriptionDoc.

(** Modelled from the spec: the video schema (models/video.model.js), with
    the fields the controller reads and writes and the timestamps the
    listing sorts by. *)
Module VideoDoc.
Record t := {
  title : string;
  description : string;
  duration : N;
  videoFile : Image.t;
  thumbnail : Image.t;
  publisher : option Id;
  isPublished : bool;
  createdAt : N;
  updatedAt : N;
}.
End VideoDoc.

(** Modelled from the spec: the view schema (models/view.model.js): the
    video, its publisher at view time, the viewer and the creation
    timestamp.  The viewer is [req.user?._id], undefined on a request
    without user. *)
Module ViewDoc.
Record t := {
  _id : Id;
  video : Id;
  owner : Id;
  viewer : option Id;
  createdAt : N;
}.
End ViewDoc.

(** The database and the object storage.  Videos and users are keyed by
    [_id]; views keep their insertion order, which [findOneAndDelete]
    follows; [next_id] is the source of fresh identifiers. *)
Record Db := {
  users : gmap Id UserDoc.t;
  subscriptions : list SubscriptionDoc.t;
  videos : gmap Id VideoDoc.t;
  views : list ViewDoc.t;
  assets : gset string;
  next_id : Id;
}.

Definition set_videos (f : gmap Id VideoDoc.t -> gmap Id VideoDoc.t) (s : Db) : Db :=
  {| users := users s; subscriptions := subscriptions s; videos := f (videos s);
     views := views s; assets := assets s; next_id := next_id s |}.

Definition set_views (f : list ViewDoc.t -> list ViewDoc.t) (s : Db) : Db :=
  {| users := users s; subscriptions := subscriptions s; videos := videos s;
     views := f (views s); assets := assets s; next_id := next_id s |}.

Definition set_assets (f : gset string -> gset string) (s : Db) : Db :=
  {| users := users s; subscriptions := subscriptions s; videos := videos s;
     views := views s; assets := f (assets s); next_id := next_id s |}.

Definition bump_id (s : Db) : Db :=
  {| users := users s; subscriptions := subscriptions s; videos := videos s;
     views := views s; assets := assets s; next_id := next_id s + 1 |}.

(* ===================================================================== *)
(** ** Requests, responses, errors                                        *)
(* ===================================================================== *)

(** The fields of the single-video aggregation's [$project] stage. *)
Module Detail.
Record t := {
  _id : Id;
  title : string;
  description : string;
  duration : N;
  videoFile : Image.t;
  thumbnail : Image.t;
  viewsCount : nat;
  publisherId : Id;
  publisherAvatar : Image.t;
  publisherUsername : string;
  publisherFullname : string;
  subscribesCount : nat;
  subscribersCount : nat;
  isSubscribed : bool;
  createdAt : N;
  updatedAt : N;
}.
End Detail.

(** The fields of the listing aggregation's [$project] stage. *)
Module Listed.
Record t := {
  _id : Id;
  title : string;
  duration : N;
  thumbnail : Image.t;
  viewsCount : nat;
  publisherAvatar : Image.t;
  publisherUsername : string;
  publisherFullname : string;
  createdAt : N;
  updatedAt : N;
}.
End Listed.

(** Modelled from the spec: the page container of the pagination plugin,
    its items under the custom label [videoList] and its total under
    [totalVideos]. *)
Module Page.
Record t := {
  videoList : list Listed.t;
  totalVideos : nat;
  limit : Z;
  page : Z;
}.
End Page.

(** The stages [getVideos] pushes on its pipeline. *)
Inductive Stage :=
| MatchText (query : Js.value)
| MatchPublisher (channelId : Id)
| LookupViewsCount
| AddViewsCount
| LookupPublisher
| UnwindPublisher
| ProjectListing
| Sort (field : Js.str) (direction : Z).

Record Options := {
  opt_page : Z;
  opt_limit : Z;
  customLabels : list (string * string);
}.

Module Upload.
Record t := { url : string; public_id : string; duration : N }.
End Upload.

(** What the collaborators answer while one request is served: the clock,
    the object storage and the pagination plugin. *)
Record Env := {
  now : N;
  upload : string -> option Upload.t;
  destroy_ok : string -> bool;
  aggregatePaginate : list Stage -> Options -> option Page.t;
}.

Record Query := {
  q_page : Js.value;
  q_limit : Js.value;
  q_query : Js.value;
  q_channelId : option Id;
  q_sortBy : Js.value;
  q_sortType : Js.value;
}.

Record Request := {
  query : Query;
  params_videoId : option Id;
  body_title : option string;
  body_description : option string;
  file_path : option string;
  files_videoFile : option string;
  files_thumbnail : option string;
  user : option Id;
}.

Inductive Data :=
| DPage (videos : Page.t)
| DDetail (video : Detail.t)
| DVideo (_id : Id) (video : VideoDoc.t)
| DUpdatedVideo (_id : Id) (updatedVideo : VideoDoc.t)
| DEmpty.

(** Modelled from the spec: the response envelope of utils/apiResponse.js,
    [{ statusCode, data, message, success }]. *)
Record ApiResponse := {
  statusCode : Z;
  data : Data;
  message : string;
  success : bool;
}.

Definition new_ApiResponse (code : Z) (d : Data) (msg : string) : ApiResponse :=
  {| statusCode := code; data := d; message := msg; success := (code <? 400)%Z |}.

(** Modelled from the spec: the error of utils/apiError.js, one structured
    kind carrying an HTTP status code and a message.  [LibraryError] is an
    error a library raises on its own, with a message and no code. *)
Inductive Error :=
| ApiError (code : Z) (msg : string)
| LibraryError (msg : string).

Inductive Body :=
| Success (r : ApiResponse)
| Failure (msg : string).

Record Response := { status : Z; body : Body }.

(* ===================================================================== *)
(** ** The handler monad: database state and thrown errors                *)
(* ===================================================================== *)

Definition M (A : Type) : Type := Db -> Db * (Error + A).

Definition ret {A} (a : A) : M A := fun s => (s, inr a).

Definition bind {A B} (m : M A) (k : A -> M B) : M B :=
  fun s =>
    match m s with
    | (s', inl e) => (s', inl e)
    | (s', inr a) => k a s'
    end.

Definition throw {A} (e : Error) : M A := fun s => (s, inl e).

Definition gets {A} (f : Db -> A) : M A := fun s => (s, inr (f s)).

Definition modify (f : Db -> Db) : M unit := fun s => (f s, inr tt).

Notation "'do' x <- m ; k" := (bind m (fun x => k))
  (at level 10, x name, m at level 100, k at level 200).

(** [res.status(code).json(new ApiResponse(...))] *)
Definition send (code : Z) (r : ApiResponse) : M Response :=
  ret {| status := code; body := Success r |}.

(* ===================================================================== *)
(** ** The models' queries                                                *)
(* ===================================================================== *)

Definition touch (env : Env) (v : VideoDoc.t) : VideoDoc.t :=
  {| VideoDoc.title := VideoDoc.title v;
     VideoDoc.description := VideoDoc.description v;
     VideoDoc.duration := VideoDoc.duration v;
     VideoDoc.videoFile := VideoDoc.videoFile v;
     VideoDoc.thumbnail := VideoDoc.thumbnail v;
     VideoDoc.publisher := VideoDoc.publisher v;
     VideoDoc.isPublished := VideoDoc.isPublished v;
     VideoDoc.createdAt := VideoDoc.createdAt v;
     VideoDoc.updatedAt := now env |}.

Definition set_videoFile (i : Image.t) (v : VideoDoc.t) : VideoDoc.t :=
  {| VideoDoc.title := VideoDoc.title v;
     VideoDoc.description := VideoDoc.description v;
     VideoDoc.duration := VideoDoc.duration v;
     VideoDoc.videoFile := i;
     VideoDoc.thumbnail := VideoDoc.thumbnail v;
     VideoDoc.publisher := VideoDoc.publisher v;
     VideoDoc.isPublished := VideoDoc.isPublished v;
     VideoDoc.createdAt := VideoDoc.createdAt v;
     VideoDoc.updatedAt := VideoDoc.updatedAt v |}.

Definition set_thumbnail (i : Image.t) (v : VideoDoc.t) : VideoDoc.t :=
  {| VideoDoc.title := VideoDoc.title v;
     VideoDoc.description := VideoDoc.description v;
     VideoDoc.duration := VideoDoc.duration v;
     VideoDoc.videoFile := VideoDoc.videoFile v;
     VideoDoc.thumbnail := i;
     VideoDoc.publisher := VideoDoc.publisher v;
     VideoDoc.isPublished := VideoDoc.isPublished v;
     VideoDoc.createdAt := VideoDoc.createdAt v;
     VideoDoc.updatedAt := VideoDoc.updatedAt v |}.

Definition set_title (t : string) (v : VideoDoc.t) : VideoDoc.t :=
  {| VideoDoc.title := t;
     VideoDoc.description := VideoDoc.description v;
     VideoDoc.duration := VideoDoc.duration v;
     VideoDoc.videoFile := VideoDoc.videoFile v;
     VideoDoc.thumbnail := VideoDoc.thumbnail v;
     VideoDoc.publisher := VideoDoc.publisher v;
     VideoDoc.isPublished := VideoDoc.isPublished v;
     VideoDoc.createdAt := VideoDoc.createdAt v;
     VideoDoc.updatedAt := VideoDoc.updatedAt v |}.

Definition set_description (d : string) (v : VideoDoc.t) : VideoDoc.t :=
  {| VideoDoc.title := VideoDoc.title v;
     VideoDoc.description := d;
     VideoDoc.duration := VideoDoc.duration v;
     VideoDoc.videoFile := VideoDoc.videoFile v;
     VideoDoc.thumbnail := VideoDoc.thumbnail v;
     VideoDoc.publisher := VideoDoc.publisher v;
     VideoDoc.isPublished := VideoDoc.isPublished v;
     VideoDoc.createdAt := VideoDoc.createdAt v;
     VideoDoc.updatedAt := VideoDoc.updatedAt v |}.

Definition set_isPublished (b : bool) (v : VideoDoc.t) : VideoDoc.t :=
  {| VideoDoc.title := VideoDoc.title v;
     VideoDoc.description := VideoDoc.description v;
     VideoDoc.duration := VideoDoc.duration v;
     VideoDoc.videoFile := VideoDoc.videoFile v;
     VideoDoc.thumbnail := VideoDoc.thumbnail v;
     VideoDoc.publisher := VideoDoc.publisher v;
     VideoDoc.isPublished := b;
     VideoDoc.createdAt := VideoDoc.createdAt v;
     VideoDoc.updatedAt := VideoDoc.updatedAt v |}.

Module Video.

Definition findById (id : Id) : M (option VideoDoc.t) :=
  gets (fun s => videos s !! id).

(** [findByIdAndUpdate(id, { $set }, { new: true })]: the updated document,
    or [null] when no document has this id. *)
Definition findByIdAndUpdate (env : Env) (id : Id)
    (set : VideoDoc.t -> VideoDoc.t) : M (option VideoDoc.t) :=
  fun s =>
    match videos s !! id with
    | None => (s, inr None)
    | Some v =>
        let v' := touch env (set v) in
        (set_videos (insert id v') s, inr (Some v'))
    end.

Definition findByIdAndDelete (id : Id) : M (option VideoDoc.t) :=
  fun s =>
    match videos s !! id with
    | None => (s, inr None)
    | Some v => (set_videos (delete id) s, inr (Some v))
    end.

(** [create]: a fresh [_id], [isPublished] at its default (a new video is
    published), both timestamps now. *)
Definition create (env : Env) (videoFile thumbnail : Image.t) (duration : N)
    (publisher : option Id) (title description : string)
    : M (Id * VideoDoc.t) :=
  fun s =>
    let id := next_id s in
    let v := {| VideoDoc.title := title;
                VideoDoc.description := description;
                VideoDoc.duration := duration;
                VideoDoc.videoFile := videoFile;
                VideoDoc.thumbnail := thumbnail;
                VideoDoc.publisher := publisher;
                VideoDoc.isPublished := true;
                VideoDoc.createdAt := now env;
                VideoDoc.updatedAt := now env |} in
    (bump_id (set_videos (insert id v) s), inr (id, v)).

(** [video.save()] on a loaded document: the document is written back; a
    document whose row is gone makes the save reject. *)
Definition save (env : Env) (id : Id) (v : VideoDoc.t) : M VideoDoc.t :=
  fun s =>
    match videos s !! id with
    | None => (s, inl (LibraryError "DocumentNotFoundError"))
    | Some _ =>
        let v' := touch env v in
        (set_videos (insert id v') s, inr v')
    end.

(** The pipeline of [getVideo], run on the database: [$match] by [_id],
    the correlated count of views, the publisher with its three
    subscription lookups, [$unwind] (a video without publisher document is
    dropped) and [$project]. *)
Definition aggregate_detail (id : Id) (requester : option Id) (s : Db)
    : list Detail.t :=
  match videos s !! id with
  | None => []
  | Some v =>
      match VideoDoc.publisher v with
      | None => []
      | Some p =>
          match users s !! p with
          | None => []
          | Some u =>
              let subs := subscriptions s in
              [ {| Detail._id := id;
                   Detail.title := VideoDoc.title v;
                   Detail.description := VideoDoc.description v;
                   Detail.duration := VideoDoc.duration v;
                   Detail.videoFile := VideoDoc.videoFile v;
                   Detail.thumbnail := VideoDoc.thumbnail v;
                   Detail.viewsCount :=
                     length (filter (fun w => ViewDoc.video w = id) (views s));
                   Detail.publisherId := p;
                   Detail.publisherAvatar := UserDoc.avatar u;
                   Detail.publisherUsername := UserDoc.username u;
                   Detail.publisherFullname := UserDoc.fullname u;
                   Detail.subscribesCount :=
                     length (filter (fun e => SubscriptionDoc.subscriber e = p) subs);
                   Detail.subscribersCount :=
                     length (filter (fun e => SubscriptionDoc.channel e = p) subs);
                   Detail.isSubscribed :=
                     bool_decide (0 <
                       length (filter (fun e => SubscriptionDoc.channel e = p
                                   ∧ Some (SubscriptionDoc.subscriber e) = requester)
                                 subs))%nat;
                   Detail.createdAt := VideoDoc.createdAt v;
                   Detail.updatedAt := VideoDoc.updatedAt v |} ]
          end
      end
  end.

End Video.

Module View.

Definition matches (video owner : Id) (viewer : option Id) (w : ViewDoc.t) : bool :=
  bool_decide (ViewDoc.video w = video)
  && bool_decide (ViewDoc.owner w = owner)
  && bool_decide (ViewDoc.viewer w = viewer).

Fixpoint remove_first (p : ViewDoc.t -> bool) (l : list ViewDoc.t)
    : option ViewDoc.t * list ViewDoc.t :=
  match l with
  | [] => (None, [])
  | w :: r =>
      if p w then (Some w, r)
      else let '(found, r') := remove_first p r in (found, w :: r')
  end.

(** [findOneAndDelete(filter)]: the first matching row is removed and
    returned. *)
Definition findOneAndDelete (video owner : Id) (viewer : option Id)
    : M (option ViewDoc.t) :=
  fun s =>
    let '(found, rest) := remove_first (matches video owner viewer) (views s) in
    (set_views (fun _ => rest) s, inr found).

Definition create (env : Env) (video owner : Id) (viewer : option Id)
    : M ViewDoc.t :=
  fun s =>
    let w := {| ViewDoc._id := next_id s; ViewDoc.video := video;
                ViewDoc.owner := owner; ViewDoc.viewer := viewer;
                ViewDoc.createdAt := now env |} in
    (bump_id (set_views (fun l => l ++ [w]) s), inr w).

(** [deleteMany({ video })]: every matching row goes; the result object
    carries the number of rows deleted. *)
Definition deleteMany (video : Id) : M nat :=
  fun s =>
    let gone := filter (fun w => ViewDoc.video w = video) (views s) in
    (set_views (filter (fun w => ViewDoc.video w ≠ video)) s, inr (length gone)).

End View.

(** Modelled from the spec: the object-storage helpers of
    utils/cloudinary.js.  An upload answers with the stored asset, a
    deletion with the service's response; either answers with a falsy
    value when the service fails, and then leaves the storage as it was. *)
Definition uploadOnCloudinary (env : Env) (localPath : string)
    : M (option Upload.t) :=
  fun s =>
    match upload env localPath with
    | Some u => (set_assets (fun a => a ∪ {[Upload.public_id u]}) s, inr (Some u))
    | None => (s, inr None)
    end.

Definition deleteFromCloudinary (env : Env) (publicId : string)
    : M (option unit) :=
  fun s =>
    if destroy_ok env publicId
    then (set_assets (fun a => a ∖ {[publicId]}) s, inr (Some tt))
    else (s, inr None).

(* ===================================================================== *)
(** ** The async functions of the video controller                        *)
(* ===================================================================== *)

(** A string the source tests with [!x]: missing and empty are falsy. *)
Definition present (o : option string) : option string :=
  match o with
  | Some s => if bool_decide (s = EmptyString) then None else Some s
  | None => None
  end.

Definition image_of (u : Upload.t) : Image.t :=
  {| Image.url := Upload.url u; Image.publicId := Upload.public_id u |}.

Module Handler.

Definition getVideos_options (q : Query) : Options :=
  {| opt_page := Js.or_default (Js.parseInt (q_page q)) 1;
     opt_limit := Js.or_default (Js.parseInt (q_limit q)) 10;
     customLabels := [("docs", "videoList"); ("totalDocs", "totalVideos")]%string |}.

Definition getVideos_pipeline (q : Query) : list Stage :=
  (if Js.truthy (q_query q) then [MatchText (q_query q)] else [])
  ++ (match q_channelId q with
      | Some channelId => [MatchPublisher channelId]
      | None => []
      end)
  ++ [LookupViewsCount; AddViewsCount; LookupPublisher; UnwindPublisher;
      ProjectListing;
      Sort (Js.key_or (q_sortBy q) "createdAt")
           (if Js.strict_eq_lit (q_sortType q) "inc" then 1 else -1)%Z].

Definition getVideos (env : Env) (req : Request) : M Response :=
  let options := getVideos_options (query req) in
  let pipeline := getVideos_pipeline (query req) in
  match aggregatePaginate env pipeline options with
  | None =>
      throw (ApiError 500 "Something went wrong while fetching all videos")
  | Some videos =>
      if negb (Js.truthy_array (Page.videoList videos))
      then throw (ApiError 500 "Something went wrong while fetching all videos")
      else send 200 (new_ApiResponse 200 (DPage videos) "Videos fetched successfully")
  end.

(** The documents [Video.create] and [View.create] return are objects, so
    the [!video] and [!newView] tests that follow them in the source never
    fire; the same holds for the result of [save] and of [deleteMany]. *)
Definition publishVideo (env : Env) (req : Request) : M Response :=
  match present (body_title req), present (body_description req) with
  | Some title, Some description =>
      match present (files_videoFile req), present (files_thumbnail req) with
      | Some videoFileLocalPath, Some thumbnailLocalPath =>
          do videoFile <- uploadOnCloudinary env videoFileLocalPath ;
          do thumbnail <- uploadOnCloudinary env thumbnailLocalPath ;
          match videoFile, thumbnail with
          | Some videoFile, Some thumbnail =>
              do video <- Video.create env (image_of videoFile) (image_of thumbnail)
                            (Upload.duration videoFile) (user req) title description ;
              ret {| status := 201;
                     body := Success (new_ApiResponse 200 (DVideo (fst video) (snd video))
                                        "Video uploaded successfully") |}
          | _, _ =>
              throw (ApiError 500
                "Something went wrong while uploading video and thumbnail in cloudinary")
          end
      | _, _ => throw (ApiError 400 "Video and Thumbnail both are required")
      end
  | _, _ => throw (ApiError 400 "Title and Description both are required")
  end.

Definition getVideo (env : Env) (req : Request) : M Response :=
  match params_videoId req with
  | None => throw (ApiError 400 "Video ID is required")
  | Some videoId =>
      do videos <- gets (Video.aggregate_detail videoId (user req)) ;
      match head videos with
      | None => throw (ApiError 500 "Something went wrong while fetching the video")
      | Some video =>
          do _ <- View.findOneAndDelete (Detail._id video) (Detail.publisherId video)
                    (user req) ;
          do newView <- View.create env (Detail._id video) (Detail.publisherId video)
                          (user req) ;
          send 200 (new_ApiResponse 200 (DDetail video) "User fetched successfully")
      end
  end.

Definition changeVideoFile (env : Env) (req : Request) : M Response :=
  match params_videoId req with
  | None => throw (ApiError 400 "Video ID is required")
  | Some videoId =>
      match present (file_path req) with
      | None => throw (ApiError 400 "Video file is missing")
      | Some videoFileLocalPath =>
          do oldVideo <- Video.findById videoId ;
          match oldVideo with
          | None =>
              throw (ApiError 500 "Something went wrong while fetching the old video")
          | Some oldVideo =>
              do oldVideoFile <-
                deleteFromCloudinary env (Image.publicId (VideoDoc.videoFile oldVideo)) ;
              match oldVideoFile with
              | None =>
                  throw (ApiError 500
                    "Something went wrong while deleting the old video file from cloudinary")
              | Some _ =>
                  do newVideoFile <- uploadOnCloudinary env videoFileLocalPath ;
                  match newVideoFile with
                  | None =>
                      throw (ApiError 500
                        "Something went wrong while uploading the new video file in cloudinary")
                  | Some newVideoFile =>
                      do updatedVideo <-
                        Video.findByIdAndUpdate env videoId
                          (set_videoFile (image_of newVideoFile)) ;
                      match updatedVideo with
                      | None =>
                          throw (ApiError 500
                            "Something went wrong while updating the video file")
                      | Some updatedVideo =>
                          send 200 (new_ApiResponse 200
                                      (DUpdatedVideo videoId updatedVideo)
                                      "Video file updated successfully")
                      end
                  end
              end
          end
      end
  end.

Definition changeThumbnail (env : Env) (req : Request) : M Response :=
  match params_videoId req with
  | None => throw (ApiError 400 "Video ID is required")
  | Some videoId =>
      match present (file_path req) with
      | None => throw (ApiError 400 "Thumbnail is missing")
      | Some thumbnailLocalPath =>
          do oldVideo <- Video.findById videoId ;
          match oldVideo with
          | None =>
              throw (ApiError 500 "Something went wrong while fetching the old video")
          | Some oldVideo =>
              do oldThumbnail <-
                deleteFromCloudinary env (Image.publicId (VideoDoc.thumbnail oldVideo)) ;
              match oldThumbnail with
              | None =>
                  throw (ApiError 500
                    "Something went wrong while deleting the old thumbnail from cloudinary")
              | Some _ =>
                  do newThumbnail <- uploadOnCloudinary env thumbnailLocalPath ;
                  match newThumbnail with
                  | None =>
                      throw (ApiError 500
                        "Something went wrong while uploading the new thumbnail in cloudinary")
                  | Some newThumbnail =>
                      do updatedVideo <-
                        Video.findByIdAndUpdate env videoId
                          (set_thumbnail (image_of newThumbnail)) ;
                      match updatedVideo with
                      | None =>
                          throw (ApiError 500
                            "Something went wrong while updating the thumbnail")
                      | Some updatedVideo =>
                          send 200 (new_ApiResponse 200
                                      (DUpdatedVideo videoId updatedVideo)
                                      "Thumbnail updated successfully")
                      end
                  end
              end
          end
      end
  end.

Definition changeTitle (env : Env) (req : Request) : M Response :=
  match params_videoId req with
  | None => throw (ApiError 400 "Video ID is required")
  | Some videoId =>
      match present (body_title req) with
      | None => throw (ApiError 400 "Title is missing")
      | Some title =>
          do updatedVideo <- Video.findByIdAndUpdate env videoId (set_title title) ;
          match updatedVideo with
          | None =>
              throw (ApiError 500 "Something went wrong while updating the video title")
          | Some updatedVideo =>
              send 200 (new_ApiResponse 200 (DUpdatedVideo videoId updatedVideo)
                          "Video title updated successfully")
          end
      end
  end.

Definition changeDescription (env : Env) (req : Request) : M Response :=
  match params_videoId req with
  | None => throw (ApiError 400 "Video ID is required")
  | Some videoId =>
      match present (body_description req) with
      | None => throw (ApiError 400 "description is missing")
      | Some description =>
          do updatedVideo <-
            Video.findByIdAndUpdate env videoId (set_description description) ;
          match updatedVideo with
          | None =>
              throw (ApiError 500
                "Something went wrong while updating the video description")
          | Some updatedVideo =>
              send 200 (new_ApiResponse 200 (DUpdatedVideo videoId updatedVideo)
                          "Video description updated successfully")
          end
      end
  end.

Definition togglePublishStatus (env : Env) (req : Request) : M Response :=
  match params_videoId req with
  | None => throw (ApiError 400 "Video ID is required")
  | Some videoId =>
      do video <- Video.findById videoId ;
      match video with
      | None => throw (ApiError 500 "Something went wrong while fetching the video")
      | Some video =>
          let video := set_isPublished (negb (VideoDoc.isPublished video)) video in
          do updatedVideo <- Video.save env videoId video ;
          send 200 (new_ApiResponse 200 (DUpdatedVideo videoId updatedVideo)
                      "Publish status toggled successfully")
      end
  end.

Definition deleteVideo (env : Env) (req : Request) : M Response :=
  match params_videoId req with
  | None => throw (ApiError 400 "Video ID is required")
  | Some videoId =>
      do oldVideo <- Video.findById videoId ;
      match oldVideo with
      | None => throw (ApiError 500 "Something went wrong while fetching the video")
      | Some oldVideo =>
          do _ <- deleteFromCloudinary env (Image.publicId (VideoDoc.videoFile oldVideo)) ;
          do _ <- deleteFromCloudinary env (Image.publicId (VideoDoc.thumbnail oldVideo)) ;
          do deletedVideo <- Video.findByIdAndDelete videoId ;
          match deletedVideo with
          | None => throw (ApiError 500 "Something went wrong while deleting the video")
          | Some deletedVideo =>
              do viewsOfTheOldVideo <- View.deleteMany videoId ;
              send 200 (new_ApiResponse 200 DEmpty "Video deleted successfully")
          end
      end
  end.

End Handler.

(* ===================================================================== *)
(** ** asyncHandler                                                       *)
(* ===================================================================== *)

Inductive PromiseState :=
| Pending
| Fulfilled
| Rejected (error : Error).

(** How a call of a request handler ends: it throws, or it returns a
    promise ([Some]) or some other value ([None]). *)
Inductive Completion :=
| Throws (error : Error)
| Returns (promise : option PromiseState).

(** What is observable of a handler on the response and on the
    next-function. *)
Inductive Event :=
| Write (r : Response)
| Next (error : Error)
| Uncaught (error : Error).

Record Run := { events : list Event; completion : Completion }.

Definition RequestHandler := Request -> Db -> Db * Run.

(** [Promise.resolve(requestHandler(req, res, next)).catch(error => next(error))]:
    a rejection reaches [next]; an exception thrown by the call itself
    leaves the wrapper before any promise exists. *)
Definition asyncHandler (requestHandler : RequestHandler)
    : Request -> Db -> Db * list Event :=
  fun req s =>
    let '(s', run) := requestHandler req s in
    (s', events run ++
         match completion run with
         | Throws error => [Uncaught error]
         | Returns (Some (Rejected error)) => [Next error]
         | Returns _ => []
         end).

(** An [async (req, res) => { ... }] function: it never throws; its
    promise is fulfilled once the response is written and rejected with
    whatever the body throws. *)
Definition async (f : Request -> M Response) : RequestHandler :=
  fun req s =>
    match f req s with
    | (s', inr r) => (s', {| events := [Write r]; completion := Returns (Some Fulfilled) |})
    | (s', inl e) => (s', {| events := []; completion := Returns (Some (Rejected e)) |})
    end.

(** Modelled from the spec: the centralized dispatcher behind the
    next-function, absent from the sources: the status is the error's code
    (500 by default), the body [{ success: false, message }], as in the
    earlier wrapper that utils/asyncHandler.js keeps in a comment. *)
Definition errorDispatcher (error : Error) : Response :=
  match error with
  | ApiError code msg =>
      {| status := if (code =? 0)%Z then 500%Z else code; body := Failure msg |}
  | LibraryError msg => {| status := 500; body := Failure msg |}
  end.

(** The responses a client sees when the next-function answers an error
    with [next error]. *)
Definition responses (next : Error -> Response) (l : list Event) : list Response :=
  omap (fun e => match e with
                 | Write r => Some r
                 | Next error => Some (next error)
                 | Uncaught _ => None
                 end) l.

Module VideoController.
Definition getVideos (env : Env) := asyncHandler (async (Handler.getVideos env)).
Definition publishVideo (env : Env) := asyncHandler (async (Handler.publishVideo env)).
Definition getVideo (env : Env) := asyncHandler (async (Handler.getVideo env)).
Definition changeVideoFile (env : Env) := asyncHandler (async (Handler.changeVideoFile env)).
Definition changeThumbnail (env : Env) := asyncHandler (async (Handler.changeThumbnail env)).
Definition changeTitle (env : Env) := asyncHandler (async (Handler.changeTitle env)).
Definition changeDescription (env : Env) := asyncHandler (async (Handler.changeDescription env)).
Definition deleteVideo (env : Env) := asyncHandler (async (Handler.deleteVideo env)).
Definition togglePublishStatus (env : Env) := asyncHandler (async (Handler.togglePublishStatus env)).
End VideoController.

(* ===================================================================== *)
(** ** The states the backend reaches                                     *)
(* ===================================================================== *)

Definition handlers : list (Env -> Request -> M Response) :=
  [Handler.getVideos; Handler.publishVideo; Handler.getVideo;
   Handler.changeVideoFile; Handler.changeThumbnail; Handler.changeTitle;
   Handler.changeDescription; Handler.deleteVideo; Handler.togglePublishStatus].

(** One request: served by the video controller, or by another controller,
    which works on accounts, subscriptions and their media. *)
Inductive step : Db -> Db -> Prop :=
| step_video h env req s :
    h ∈ handlers -> step s (fst (h env req s))
| step_other s users' subscriptions' assets' next_id' :
    next_id s <= next_id' ->
    step s {| users := users'; subscriptions := subscriptions';
              videos := videos s; views := views s;
              assets := assets'; next_id := next_id' |}.

Definition initial (s : Db) : Prop := videos s = ∅ ∧ views s = [].

Inductive reachable : Db -> Prop :=
| reachable_initial s : initial s -> reachable s
| reachable_step s s' : reachable s -> step s s' -> reachable s'.

(** The view rows of one (video, viewer) pair. *)
Definition view_rows (video : Id) (viewer : option Id) (s : Db) : list ViewDoc.t :=
  filter (fun w => ViewDoc.video w = video ∧ ViewDoc.viewer w = viewer) (views s).

(** The view rows of one video: [View.find({ video })]. *)
Definition views_of (video : Id) (s : Db) : list ViewDoc.t :=
  filter (fun w => ViewDoc.video w = video) (views s).

(* ===================================================================== *)
(** ** The specification's vocabulary                                     *)
(* ===================================================================== *)

Module Spec.

Definition decimal_digit (c : N) : bool := (48 <=? c) && (c <=? 57).

Definition strip_sign (s : Js.str) : Js.str :=
  match s with
  | c :: r => if (c =? 45) || (c =? 43) then r else s
  | [] => []
  end.

(** The text of a query parameter starts, after leading white space and one
    optional sign, with a decimal digit: what [parseInt] needs to read a
    number. *)
Definition leading_digit (v : Js.value) : bool :=
  match strip_sign (Js.trim_start (Js.ToString v)) with
  | c :: _ => decimal_digit c
  | [] => false
  end.

(** Omitted, or with no leading digit. *)
Definition omitted_or_no_leading_digit (v : Js.value) : Prop :=
  v = Js.Undefined ∨ leading_digit v = false.

(** A numeric query parameter, as the word is commonly read: a string that
    is, as a whole, a decimal numeral with one optional sign. *)
Definition numeric (v : Js.value) : bool :=
  match v with
  | Js.Str s =>
      match strip_sign s with
      | [] => false
      | c :: r => forallb decimal_digit (c :: r)
      end
  | _ => false
  end.

End Spec.

(* ===================================================================== *)
(** ** The user model                                                     *)
(* ===================================================================== *)

Module UserModel.

(** A user document in memory: its fields, as the schema's setters left
    them ([trim], [lowercase]), and the bookkeeping [save] consults. *)
Record document := {
  _id : Id;
  fields : UserDoc.t;
  isNew : bool;
  modifiedPaths : gset string;
}.

Definition isModified (path : string) (d : document) : bool :=
  bool_decide (path ∈ modifiedPaths d).

Definition with_password (p : string) (u : UserDoc.t) : UserDoc.t :=
  {| UserDoc.username := UserDoc.username u;
     UserDoc.email := UserDoc.email u;
     UserDoc.fullname := UserDoc.fullname u;
     UserDoc.avatar := UserDoc.avatar u;
     UserDoc.coverImage := UserDoc.coverImage u;
     UserDoc.password := p;
     UserDoc.refreshToken := UserDoc.refreshToken u |}.

(** [this.password = p]: the path is marked modified when the document is
    new or the value changes. *)
Definition assign_password (p : string) (d : document) : document :=
  {| _id := _id d;
     fields := with_password p (fields d);
     isNew := isNew d;
     modifiedPaths :=
       if isNew d || negb (bool_decide (p = UserDoc.password (fields d)))
       then {["password"%string]} ∪ modifiedPaths d
       else modifiedPaths d |}.

(** The schema's [required] paths; an empty string does not satisfy
    [required]. *)
Definition validate (d : document) : bool :=
  negb (bool_decide (UserDoc.username (fields d) = EmptyString))
  && negb (bool_decide (UserDoc.email (fields d) = EmptyString))
  && negb (bool_decide (UserDoc.fullname (fields d) = EmptyString))
  && negb (bool_decide (UserDoc.password (fields d) = EmptyString)).

(** What an update of an existing row writes: the modified paths only. *)
Definition write_modified (m : gset string) (old new : UserDoc.t) : UserDoc.t :=
  let pick {A} (path : string) (f : UserDoc.t -> A) : A :=
    if bool_decide (path ∈ m) then f new else f old in
  {| UserDoc.username := pick "username"%string UserDoc.username;
     UserDoc.email := pick "email"%string UserDoc.email;
     UserDoc.fullname := pick "fullname"%string UserDoc.fullname;
     UserDoc.avatar := pick "avatar"%string UserDoc.avatar;
     UserDoc.coverImage := pick "coverImage"%string UserDoc.coverImage;
     UserDoc.password := pick "password"%string UserDoc.password;
     UserDoc.refreshToken := pick "refreshToken"%string UserDoc.refreshToken |}.

Definition saved (d : document) : document :=
  {| _id := _id d; fields := fields d; isNew := false; modifiedPaths := ∅ |}.

Section Bcrypt.

(** The hashing library: [hash(data, saltRounds)] with the salt it draws,
    and [compare(data, encrypted)]. *)
Variable bcrypt_hash : string -> N -> string -> string.
Variable bcrypt_compare : string -> string -> bool.

(** [userSchema.pre("save")], with the calls it makes to [bcrypt.hash]. *)
Definition pre_save (salt : string) (d : document)
    : document * list (string * N) :=
  if isModified "password" d
  then (assign_password (bcrypt_hash (UserDoc.password (fields d)) 10 salt) d,
        [(UserDoc.password (fields d), 10)])
  else (d, []).

Definition isPasswordCorrect (d : document) (password : string) : bool :=
  bcrypt_compare password (UserDoc.password (fields d)).

(** [document.save({ validateBeforeSave })]: validation, then the hook,
    then the write: an insert for a new document (rejected when the id is
    taken), an update of the modified paths otherwise (rejected when the
    row is gone).  A rejected save returns no document.  The unique
    indexes on [username] and [email] reject further writes, after the
    hook has run; they are left out, so that what is stated of a save is
    stated of one that goes through. *)
Definition save (validateBeforeSave : bool) (salt : string) (d : document)
    (store : gmap Id UserDoc.t)
    : option document * gmap Id UserDoc.t * list (string * N) :=
  if validateBeforeSave && negb (validate d) then (None, store, [])
  else
    let '(d', calls) := pre_save salt d in
    match store !! _id d', isNew d' with
    | None, true => (Some (saved d'), <[_id d' := fields d']> store, calls)
    | Some old, false =>
        (Some (saved d'),
         <[_id d' := write_modified (modifiedPaths d') old (fields d')]> store,
         calls)
    | _, _ => (None, store, calls)
    end.

End Bcrypt.

End UserModel.

(* ===================================================================== *)
(** ** The data-model invariant of the view rows                          *)
(* ===================================================================== *)

(** Identifiers in use are below [next_id]; a view row of a stored video
    names the video's publisher as its owner; a (video, viewer) pair has at
    most one view row. *)
Record inv (s : Db) : Prop := {
  inv_video_ids : forall id v, videos s !! id = Some v -> id < next_id s;
  inv_view_refs : forall w, w ∈ views s -> ViewDoc.video w < next_id s;
  inv_owner : forall w v,
    w ∈ views s -> videos s !! ViewDoc.video w = Some v ->
    VideoDoc.publisher v = Some (ViewDoc.owner w);
  inv_latest : forall video viewer, (length (view_rows video viewer s) <= 1)%nat;
}.

(** A computation keeps the invariant, whether it returns or throws. *)
Definition keeps {A} (m : M A) : Prop := forall s, inv s -> inv (fst (m s)).

(* ===================================================================== *)
(** ** Sample data                                                        *)
(* ===================================================================== *)

Definition query_abc : Query :=
  {| q_page := Js.Undefined; q_limit := Js.Str (Js.lit "abc");
     q_query := Js.Undefined; q_channelId := None;
     q_sortBy := Js.Undefined; q_sortType := Js.Undefined |}.

Definition query_zero : Query :=
  {| q_page := Js.Str (Js.lit " -000.5"); q_limit := Js.Str (Js.lit "0");
     q_query := Js.Undefined; q_channelId := None;
     q_sortBy := Js.Undefined; q_sortType := Js.Undefined |}.

Definition empty_page : Page.t :=
  {| Page.videoList := []; Page.totalVideos := 0; Page.limit := 10; Page.page := 1 |}.

Definition blank_request : Request :=
  {| query := query_abc; params_videoId := None; body_title := None;
     body_description := None; file_path := None; files_videoFile := None;
     files_thumbnail := None; user := None |}.

Definition empty_db : Db :=
  {| users := ∅; subscriptions := []; videos := ∅; views := [];
     assets := ∅; next_id := 0 |}.

Definition env_empty_page : Env :=
  {| now := 0; upload := fun _ => None; destroy_ok := fun _ => true;
     aggregatePaginate := fun _ _ => Some empty_page |}.

Definition deleted_response : Response :=
  {| status := 200;
     body := Success (new_ApiResponse 200 DEmpty "Video deleted successfully") |}.

Definition fetched_response (d : Detail.t) : Response :=
  {| status := 200;
     body := Success (new_ApiResponse 200 (DDetail d) "User fetched successfully") |}.

Definition alice : UserDoc.t :=
  {| UserDoc.username := "alice"; UserDoc.email := "alice@example.com";
     UserDoc.fullname := "Alice";
     UserDoc.avatar := {| Image.url := "http://cdn/avatar-a"; Image.publicId := "avatar-a" |};
     UserDoc.coverImage := None; UserDoc.password := "$2b$10$stored";
     UserDoc.refreshToken := None |}.

(** One account, no video yet. *)
Definition db0 : Db :=
  {| users := {[1 := alice]}; subscriptions := []; videos := ∅; views := [];
     assets := {["avatar-a"%string]}; next_id := 2 |}.

(** A storage service that works, and one that is down, at time [t]. *)
Definition env_up (t : N) : Env :=
  {| now := t;
     upload := fun path =>
       Some {| Upload.url := path; Upload.public_id := path; Upload.duration := 60 |};
     destroy_ok := fun _ => true;
     aggregatePaginate := fun _ _ => Some empty_page |}.

Definition env_down (t : N) : Env :=
  {| now := t; upload := fun _ => None; destroy_ok := fun _ => false;
     aggregatePaginate := fun _ _ => None |}.

Definition req_publish : Request :=
  {| query := query_abc; params_videoId := None;
     body_title := Some "Intro"%string; body_description := Some "First video"%string;
     file_path := None; files_videoFile := Some "clip.mp4"%string;
     files_thumbnail := Some "clip.png"%string; user := Some 1 |}.

(** A request on video 2 by [viewer]. *)
Definition req_video (viewer : option Id) : Request :=
  {| query := query_abc; params_videoId := Some 2;
     body_title := Some "Renamed"%string; body_description := Some "Edited"%string;
     file_path := Some "new.mp4"%string; files_videoFile := None;
     files_thumbnail := None; user := viewer |}.

Definition video_a : VideoDoc.t :=
  {| VideoDoc.title := "Intro"; VideoDoc.description := "First video";
     VideoDoc.duration := 60;
     VideoDoc.videoFile := {| Image.url := "clip.mp4"; Image.publicId := "clip.mp4" |};
     VideoDoc.thumbnail := {| Image.url := "clip.png"; Image.publicId := "clip.png" |};
     VideoDoc.publisher := Some 1; VideoDoc.isPublished := true;
     VideoDoc.createdAt := 100; VideoDoc.updatedAt := 100 |}.

(** The database after Alice has published [video_a] at time 100. *)
Definition db1 : Db := fst (Handler.publishVideo (env_up 100) req_publish db0).

(** A stand-in for the hashing library in examples. *)
Definition sample_hash (data : string) (rounds : N) (salt : string) : string :=
  String.append salt data.

(** Alice's document as loaded, after a new refresh token has been set,
    and after a new password has been set. *)
Definition alice_token_set : UserModel.document :=
  {| UserModel._id := 1; UserModel.fields := alice; UserModel.isNew := false;
     UserModel.modifiedPaths := {["refreshToken"%string]} |}.

Definition alice_password_set : UserModel.document :=
  {| UserModel._id := 1; UserModel.fields := UserModel.with_password "secret123" alice;
     UserModel.isNew := false; UserModel.modifiedPaths := {["password"%string]} |}.

(** The sign a text starts with, as [parseInt] reads it. *)
Definition sign_value (sign : Js.str) : Z :=
  if bool_decide (sign = [45]) then (-1)%Z else 1%Z.

(* ===================================================================== *)
(** ** [removeFields]                                                     *)
(* ===================================================================== *)

Module UserObject.

(** The values a plain user object holds under its keys. *)
Inductive value :=
| VId (id : Id)
| VString (s : string)
| VImage (i : Image.t).

(** [this.toObject()]: a fresh plain object with the paths of the
    document that are set. *)
Definition toObject (d : UserModel.document) : gmap string value :=
  let u := UserModel.fields d in
  let optional (key : string) (v : option value) (o : gmap string value) :=
    match v with Some x => <[key := x]> o | None => o end in
  optional "coverImage"%string (VImage <$> UserDoc.coverImage u)
    (optional "refreshToken"%string (VString <$> UserDoc.refreshToken u)
       (<["_id"%string := VId (UserModel._id d)]>
          (<["username"%string := VString (UserDoc.username u)]>
             (<["email"%string := VString (UserDoc.email u)]>
                (<["fullname"%string := VString (UserDoc.fullname u)]>
                   (<["avatar"%string := VImage (UserDoc.avatar u)]>
                      (<["password"%string := VString (UserDoc.password u)]> ∅))))))).

(** [fields.map(field => delete userObject[field])] on the copy, which is
    returned. *)
Definition removeFields (d : UserModel.document) (fields : list string)
    : gmap string value :=
  foldl (fun userObject field => delete field userObject) (toObject d) fields.

End UserObject.

(** Query strings used in examples. *)
Definition query_page_limit (page limit : Js.value) : Query :=
  {| q_page := page; q_limit := limit; q_query := Js.Undefined;
     q_channelId := None; q_sortBy := Js.Undefined; q_sortType := Js.Undefined |}.


(** The document [publishVideo] creates, and the error it raises when an
    upload fails. *)
Definition published_video (env : Env) (req : Request)
    (title description : string) (uv ut : Upload.t) : VideoDoc.t :=
  {| VideoDoc.title := title; VideoDoc.description := description;
     VideoDoc.duration := Upload.duration uv;
     VideoDoc.videoFile := image_of uv; VideoDoc.thumbnail := image_of ut;
     VideoDoc.publisher := user req; VideoDoc.isPublished := true;
     VideoDoc.createdAt := now env; VideoDoc.updatedAt := now env |}.

Definition upload_failed : Error :=
  ApiError 500 "Something went wrong while uploading video and thumbnail in cloudinary".


(** A storage service that takes the video file and fails on the
    thumbnail. *)
Definition env_thumbnail_fails : Env :=
  {| now := 100;
     upload := fun path =>
       if bool_decide (path = "clip.png"%string) then None
       else Some {| Upload.url := path; Upload.public_id := path;
                    Upload.duration := 60 |};
     destroy_ok := fun _ => true;
     aggregatePaginate := fun _ _ => None |}.


(* ===================================================================== *)
(** ** Further invariants                                                 *)
(* ===================================================================== *)




(** The database after Alice has fetched her video at time 200, and the
    view row that fetch recorded. *)
Definition db2 : Db := fst (Handler.getVideo (env_up 200) (req_video (Some 1)) db1).



(** The handlers that address one video by [req.params.videoId]. *)
Definition video_handlers : list (Env -> Request -> M Response) :=
  [Handler.getVideo; Handler.changeVideoFile; Handler.changeThumbnail;
   Handler.changeTitle; Handler.changeDescription; Handler.deleteVideo;
   Handler.togglePublishStatus].

(** A second upload by Alice, and a request on the video it creates. *)
Definition req_publish_second : Request :=
  {| query := query_abc; params_videoId := None;
     body_title := Some "Second"%string; body_description := Some "Another"%string;
     file_path := None; files_videoFile := Some "two.mp4"%string;
     files_thumbnail := Some "two.png"%string; user := Some 1 |}.

Definition req_video_3 : Request :=
  {| query := query_abc; params_videoId := Some 4;
     body_title := None; body_description := None;
     file_path := None; files_videoFile := None;
     files_thumbnail := None; user := Some 1 |}.


(** The handlers that edit one stored video. *)
Definition edit_handlers : list (Env -> Request -> M Response) :=
  [Handler.changeVideoFile; Handler.changeThumbnail; Handler.changeTitle;
   Handler.changeDescription; Handler.togglePublishStatus].

(** From [s] to [s'] nothing has changed but, possibly, the assets and
    the video [id], which is still there if it was, with its publisher,
    creation time and duration. *)
Definition retouched (id : Id) (s s' : Db) : Prop :=
  users s' = users s ∧ subscriptions s' = subscriptions s
  ∧ views s' = views s ∧ next_id s' = next_id s
  ∧ (forall id', id' ≠ id -> videos s' !! id' = videos s !! id')
  ∧ match videos s !! id, videos s' !! id with
    | Some v, Some v' =>
        VideoDoc.publisher v' = VideoDoc.publisher v
        ∧ VideoDoc.createdAt v' = VideoDoc.createdAt v
        ∧ VideoDoc.duration v' = VideoDoc.duration v
    | None, None => True
    | _, _ => False
    end.


Definition bob : UserDoc.t :=
  {| UserDoc.username := "bob"; UserDoc.email := "bob@example.com";
     UserDoc.fullname := "Bob";
     UserDoc.avatar := {| Image.url := "http://cdn/avatar-b"; Image.publicId := "avatar-b" |};
     UserDoc.coverImage := None; UserDoc.password := "secret123";
     UserDoc.refreshToken := Some "token-b"%string |}.

(** A handler that throws before it returns a promise. *)
Definition throwing_handler : RequestHandler :=
  fun _ s => (s, {| events := []; completion := Throws (LibraryError "TypeError") |}).


(** A storage service that deletes and then fails to upload. *)
Definition env_upload_fails : Env :=
  {| now := 200; upload := fun _ => None; destroy_ok := fun _ => true;
     aggregatePaginate := fun _ _ => None |}.

Definition query_sorted : Query :=
  {| q_page := Js.Undefined; q_limit := Js.Undefined;
     q_query := Js.Str (Js.lit "cats"); q_channelId := Some 1;
     q_sortBy := Js.Str (Js.lit "title"); q_sortType := Js.Str (Js.lit "inc") |}.


(* ===================================================================== *)
(** ** The hashing library, from its documentation                        *)
(* ===================================================================== *)

(** [bcrypt.hash(data, rounds)] draws a salt of 22 characters and returns
    the string made of the version tag, the cost in two digits, the salt
    and the digest; the digest is computed from the salt, the cost and the
    first 72 bytes of [data], and the bytes after the 72nd are ignored.
    [bcrypt.compare(data, encrypted)] reads the cost and the salt back from
    [encrypted], hashes [data] with them and compares the result with
    [encrypted].  A string stands for its bytes; the cipher that computes
    the digest stays abstract. *)
Module Bcrypt.

Definition first72 (data : string) : string := substring 0 72 data.

Definition two_digits (n : N) : string :=
  String (ascii_of_N (48 + n / 10 mod 10))
    (String (ascii_of_N (48 + n mod 10)) EmptyString).

Definition digit_of (c : ascii) : N := N_of_ascii c - 48.

(** The cost and the salt of a hash string: the characters at 4 and 5, and
    the 22 characters from 7 on. *)
Definition rounds_of (encrypted : string) : N :=
  match substring 4 2 encrypted with
  | String a (String b EmptyString) => 10 * digit_of a + digit_of b
  | _ => 0
  end.

Definition salt_of (encrypted : string) : string := substring 7 22 encrypted.

Fixpoint starts_with (tag s : string) : bool :=
  match tag with
  | EmptyString => true
  | String a tag' =>
      match s with
      | String b s' => Ascii.eqb a b && starts_with tag' s'
      | EmptyString => false
      end
  end.

(** A string that starts like a hash of ten rounds. *)
Definition tagged (s : string) : bool := starts_with "$2b$10$" s.

Section Digest.

(** The digest of a key under a cost and a salt. *)
Variable digest : string -> N -> string -> string.

Definition hash (data : string) (rounds : N) (salt : string) : string :=
  String.append "$2b$"
    (String.append (two_digits rounds)
       (String.append "$"
          (String.append salt (digest (first72 data) rounds salt)))).

Definition compare (data encrypted : string) : bool :=
  bool_decide (hash data (rounds_of encrypted) (salt_of encrypted) = encrypted).

End Digest.

End Bcrypt.

(** A stand-in for the cipher in the examples: the digest is the key. *)
Definition sample_digest (key : string) (rounds : N) (salt : string) : string :=
  key.

Definition sample_salt : string := "abcdefghijklmnopqrstuv".

Fixpoint repeat_char (c : ascii) (n : nat) : string :=
  match n with
  | O => EmptyString
  | S n' => String c (repeat_char c n')
  end.

(** Two passwords that differ in their 73rd byte only. *)
Definition password_72 : string := repeat_char "a" 72.

Definition password_73 : string := String.append password_72 "b".

(** A new user document: every path that was set is modified. *)
Definition new_user (id : Id) (u : UserDoc.t) : UserModel.document :=
  {| UserModel._id := id; UserModel.fields := u; UserModel.isNew := true;
     UserModel.modifiedPaths :=
       {["username"; "email"; "fullname"; "avatar"; "password"]}%string |}.

Definition carol : UserDoc.t :=
  {| UserDoc.username := "carol"; UserDoc.email := "carol@example.com";
     UserDoc.fullname := "Carol";
     UserDoc.avatar := {| Image.url := "http://cdn/avatar-c"; Image.publicId := "avatar-c" |};
     UserDoc.coverImage := None; UserDoc.password := password_72;
     UserDoc.refreshToken := None |}.


(* ===================================================================== *)
(** * Properties                                                          *)
(* ===================================================================== *)

(** ** [parseInt] and the listing options *)

Example parseInt_12abc : Js.parseInt (Js.Str (Js.lit "12abc")) = Js.Num 12.
Proof. reflexivity. Qed.

Example parseInt_hex : Js.parseInt (Js.Str (Js.lit " -0x1Fz")) = Js.Num (-31).
Proof. reflexivity. Qed.

Example parseInt_array :
  Js.parseInt (Js.Arr [Js.Str (Js.lit "7"); Js.Str (Js.lit "8")]) = Js.Num 7.
Proof. reflexivity. Qed.

Example parseInt_undefined : Js.parseInt Js.Undefined = Js.NaN.
Proof. reflexivity. Qed.

Example parseInt_0x : Js.parseInt (Js.Str (Js.lit "0x")) = Js.NaN.
Proof. reflexivity. Qed.

Example parseInt_object : Js.parseInt Js.Obj = Js.NaN.
Proof. reflexivity. Qed.

Lemma radix_digit_10_decimal c d :
  Js.radix_digit 10 c = Some d -> Spec.decimal_digit c = true.
Proof.
  unfold Js.radix_digit, Js.digit_value, Spec.decimal_digit.
  destruct ((48 <=? c) && (c <=? 57)) eqn:E1; [done|].
  destruct ((97 <=? c) && (c <=? 122)) eqn:E2.
  - apply andb_true_iff in E2 as [H1 H2].
    apply N.leb_le in H1. destruct (c - 87 <? 10) eqn:E; [|done].
    apply N.ltb_lt in E. lia.
  - destruct ((65 <=? c) && (c <=? 90)) eqn:E3; [|done].
    apply andb_true_iff in E3 as [H1 H2].
    apply N.leb_le in H1. destruct (c - 55 <? 10) eqn:E; [|done].
    apply N.ltb_lt in E. lia.
Qed.

Lemma take_digits_10_nil s :
  match s with c :: _ => Spec.decimal_digit c | [] => false end = false ->
  Js.take_digits 10 s = [].
Proof.
  destruct s as [|c r]; [done|]. intros H. simpl.
  destruct (Js.radix_digit 10 c) eqn:E; [|done].
  apply radix_digit_10_decimal in E. congruence.
Qed.

Lemma split_radix_non_digit t :
  match t with c :: _ => Spec.decimal_digit c | [] => false end = false ->
  Js.split_radix t = (10, t).
Proof.
  destruct t as [|c [|x r]]; try done.
  intros H. unfold Js.split_radix.
  destruct (c =? 48) eqn:E; [|done].
  apply N.eqb_eq in E. subst c. done.
Qed.

(** A parameter with no leading digit parses to [NaN]. *)
Lemma parseInt_no_leading_digit v :
  Spec.leading_digit v = false -> Js.parseInt v = Js.NaN.
Proof.
  unfold Spec.leading_digit, Js.parseInt.
  set (s := Js.trim_start (Js.ToString v)). intros H.
  assert (Hs : exists sign, Js.split_sign s = (sign, Spec.strip_sign s)).
  { destruct s as [|c r]; [by exists 1%Z|]. unfold Js.split_sign, Spec.strip_sign.
    destruct (c =? 45); [by eexists|]. destruct (c =? 43); by eexists. }
  destruct Hs as [sign ->].
  rewrite (split_radix_non_digit _ H).
  by rewrite (take_digits_10_nil _ H).
Qed.

Lemma parseInt_omitted_or_no_leading_digit v :
  Spec.omitted_or_no_leading_digit v -> Js.parseInt v = Js.NaN.
Proof. intros [-> | H]; [reflexivity | by apply parseInt_no_leading_digit]. Qed.

(** C4, as amended. In [getVideos], a [page] parameter that is omitted, or
    whose text does not start (after leading white space and one optional
    sign) with a decimal digit, gives page number 1, and such a [limit]
    parameter gives page size 10. *)
Theorem getVideos_defaults (q : Query) :
  (Spec.omitted_or_no_leading_digit (q_page q) ->
     opt_page (Handler.getVideos_options q) = 1%Z)
  ∧ (Spec.omitted_or_no_leading_digit (q_limit q) ->
     opt_limit (Handler.getVideos_options q) = 10%Z).
Proof.
  split; intros H; simpl; by rewrite (parseInt_omitted_or_no_leading_digit _ H).
Qed.

Lemma getVideos_defaults_witness :
  Spec.omitted_or_no_leading_digit (q_page query_abc)
  ∧ Spec.omitted_or_no_leading_digit (q_limit query_abc)
  ∧ opt_page (Handler.getVideos_options query_abc) = 1%Z
  ∧ opt_limit (Handler.getVideos_options query_abc) = 10%Z.
Proof.
  assert (Hp : Spec.omitted_or_no_leading_digit (q_page query_abc))
    by (left; reflexivity).
  assert (Hl : Spec.omitted_or_no_leading_digit (q_limit query_abc))
    by (right; reflexivity).
  split; [exact Hp|]. split; [exact Hl|].
  split; [exact (proj1 (getVideos_defaults query_abc) Hp)
         | exact (proj2 (getVideos_defaults query_abc) Hl)].
Defined.

(** C4, as worded, fails on a text that starts with digits and goes on with
    something else: it is not numeric, yet [parseInt] reads its digits.
    With [page] the text "5 apples" and [limit] the text "12abc", the page
    number is 5 and the page size is 12, not 1 and 10. *)
Lemma getVideos_defaults_counterexample :
  Spec.numeric (Js.Str (Js.lit "5 apples")) = false
  ∧ Spec.numeric (Js.Str (Js.lit "12abc")) = false
  ∧ opt_page
      (Handler.getVideos_options
         (query_page_limit (Js.Str (Js.lit "5 apples")) (Js.Str (Js.lit "12abc"))))
    = 5%Z
  ∧ opt_limit
      (Handler.getVideos_options
         (query_page_limit (Js.Str (Js.lit "5 apples")) (Js.Str (Js.lit "12abc"))))
    = 12%Z.
Proof. repeat split. Qed.

(** A parameter with no decimal digit anywhere has no leading digit. *)
Lemma no_digit_no_leading_digit (s : Js.str) :
  Forall (fun c => Spec.decimal_digit c = false) s ->
  Spec.leading_digit (Js.Str s) = false.
Proof.
  intros H. unfold Spec.leading_digit. simpl.
  assert (Ht : Forall (fun c => Spec.decimal_digit c = false) (Js.trim_start s)).
  { induction H as [|c r Hc Hr IH]; simpl; [constructor|].
    destruct (Js.white_space c); [exact IH | by constructor]. }
  destruct Ht as [|c r Hc Hr]; simpl; [done|].
  destruct ((c =? 45) || (c =? 43)); [|done].
  destruct Hr; done.
Qed.

Example parseInt_zero_forms :
  Js.parseInt (Js.Str (Js.lit "0")) = Js.Num 0
  ∧ Js.parseInt (Js.Str (Js.lit "-0")) = Js.Num 0
  ∧ Js.parseInt (Js.Str (Js.lit "000")) = Js.Num 0
  ∧ Js.parseInt (Js.Str (Js.lit "0.9")) = Js.Num 0
  ∧ Js.parseInt (Js.Str (Js.lit "0x0")) = Js.Num 0.
Proof. repeat split. Qed.

(** C10. In [getVideos], a [page] or [limit] parameter that parses to 0
    falls back to the default as well; [limit=0] asks for ten videos, not
    for an empty page: the plugin is never asked for page 0 or for 0
    videos. *)
Theorem getVideos_zero_defaults (q : Query) :
  (Js.parseInt (q_page q) = Js.Num 0 ->
     opt_page (Handler.getVideos_options q) = 1%Z)
  ∧ (Js.parseInt (q_limit q) = Js.Num 0 ->
     opt_limit (Handler.getVideos_options q) = 10%Z)
  ∧ (q_limit q = Js.Str (Js.lit "0") ->
     opt_limit (Handler.getVideos_options q) = 10%Z)
  ∧ opt_page (Handler.getVideos_options q) ≠ 0%Z
  ∧ opt_limit (Handler.getVideos_options q) ≠ 0%Z.
Proof.
  assert (Hor : forall n d, d ≠ 0%Z -> Js.or_default n d ≠ 0%Z).
  { intros [|[| |]] d Hd; simpl; done. }
  split; [|split; [|split; [|split]]].
  - intros H. simpl. by rewrite H.
  - intros H. simpl. by rewrite H.
  - intros H. simpl. by rewrite H.
  - by apply Hor.
  - by apply Hor.
Qed.

Lemma getVideos_zero_defaults_witness :
  Js.parseInt (q_page query_zero) = Js.Num 0
  ∧ Js.parseInt (q_limit query_zero) = Js.Num 0
  ∧ opt_page (Handler.getVideos_options query_zero) = 1%Z
  ∧ opt_limit (Handler.getVideos_options query_zero) = 10%Z.
Proof.
  destruct (getVideos_zero_defaults query_zero) as (Hp & Hl & _).
  split; [reflexivity|]. split; [reflexivity|].
  split; [apply Hp; reflexivity | apply Hl; reflexivity].
Defined.

(** ** The listing handler *)

(** C6. [getVideos] raises its server error (status 500) exactly when the
    paginated aggregation yields no result container; every container it
    yields, one with an empty [videoList] included, is sent with status
    200 in a success envelope. *)
Theorem getVideos_error_iff_no_container (env : Env) (req : Request) (s : Db) :
  let container :=
    aggregatePaginate env (Handler.getVideos_pipeline (query req))
                          (Handler.getVideos_options (query req)) in
  ((exists msg, VideoController.getVideos env req s = (s, [Next (ApiError 500 msg)]))
     <-> container = None)
  ∧ (forall videos, container = Some videos ->
       VideoController.getVideos env req s
       = (s, [Write {| status := 200;
                       body := Success {| statusCode := 200; data := DPage videos;
                                          message := "Videos fetched successfully";
                                          success := true |} |}])).
Proof.
  unfold VideoController.getVideos, asyncHandler, async, Handler.getVideos.
  cbv zeta.
  destruct (aggregatePaginate env _ _) as [videos|]; simpl.
  - split; [split|].
    + intros [msg H]. discriminate H.
    + discriminate.
    + intros ? [= <-]. reflexivity.
  - split; [split|].
    + reflexivity.
    + intros _. eexists. reflexivity.
    + discriminate.
Qed.

Lemma getVideos_error_iff_no_container_witness :
  aggregatePaginate env_empty_page
    (Handler.getVideos_pipeline (query blank_request))
    (Handler.getVideos_options (query blank_request)) = Some empty_page
  ∧ responses errorDispatcher
      (snd (VideoController.getVideos env_empty_page blank_request empty_db))
    = [ {| status := 200;
           body := Success (new_ApiResponse 200 (DPage empty_page)
                              "Videos fetched successfully") |} ].
Proof.
  split; [reflexivity|].
  rewrite (proj2 (getVideos_error_iff_no_container env_empty_page blank_request empty_db)
             empty_page eq_refl).
  reflexivity.
Defined.

(** ** The request wrapper *)

(** C9. When the promise of a wrapped handler rejects with an error, the
    wrapper adds one thing to what the handler did: the call of the
    next-function with that error.  It writes no response: whatever the
    next-function answers is what the client gets, and the dispatcher
    answers with the error envelope, [success: false] and the message,
    under the error's status code. *)
Theorem asyncHandler_forwards_rejection
    (requestHandler : RequestHandler) (req : Request) (s s' : Db)
    (run : Run) (error : Error) :
  requestHandler req s = (s', run) ->
  completion run = Returns (Some (Rejected error)) ->
  asyncHandler requestHandler req s = (s', events run ++ [Next error])
  ∧ (forall next,
       responses next (snd (asyncHandler requestHandler req s))
       = responses next (events run) ++ [next error])
  ∧ (forall code msg, error = ApiError code msg -> code ≠ 0%Z ->
       errorDispatcher error = {| status := code; body := Failure msg |}).
Proof.
  intros Hrun Hc. unfold asyncHandler. rewrite Hrun, Hc. simpl.
  split; [reflexivity|]. split.
  - intros next. unfold responses. rewrite omap_app. reflexivity.
  - intros code msg -> Hcode. simpl.
    destruct (Z.eqb_spec code 0); [contradiction|reflexivity].
Qed.

Lemma asyncHandler_forwards_rejection_witness :
  VideoController.getVideo env_empty_page blank_request empty_db
  = (empty_db, [Next (ApiError 400 "Video ID is required")])
  ∧ responses errorDispatcher
      (snd (VideoController.getVideo env_empty_page blank_request empty_db))
    = [ {| status := 400; body := Failure "Video ID is required" |} ].
Proof.
  destruct (asyncHandler_forwards_rejection
              (async (Handler.getVideo env_empty_page)) blank_request
              empty_db empty_db
              {| events := [];
                 completion := Returns (Some (Rejected
                                 (ApiError 400 "Video ID is required"))) |}
              (ApiError 400 "Video ID is required") eq_refl eq_refl)
    as (H1 & H2 & H3).
  split; [exact H1|].
  unfold VideoController.getVideo. rewrite (H2 errorDispatcher).
  rewrite (H3 400%Z _ eq_refl); [reflexivity|discriminate].
Defined.

(** The other ways a handler can end: the wrapper adds nothing after a
    fulfilled or pending promise or a plain value, and an exception thrown
    by the call itself is not turned into a call of [next]. *)
Lemma asyncHandler_other_completions
    (requestHandler : RequestHandler) (req : Request) (s s' : Db) (run : Run) :
  requestHandler req s = (s', run) ->
  match completion run with
  | Returns (Some (Rejected _)) => True
  | Throws error =>
      asyncHandler requestHandler req s = (s', events run ++ [Uncaught error])
  | Returns _ => asyncHandler requestHandler req s = (s', events run ++ [])
  end.
Proof.
  intros Hrun. unfold asyncHandler. rewrite Hrun.
  destruct (completion run) as [e|[[| |e]|]]; done.
Qed.

(** A wrapped async function: a response when the body returns, a call of
    [next] when it throws. *)
Lemma wrapped_async (f : Request -> M Response) (req : Request) (s : Db) :
  asyncHandler (async f) req s
  = match f req s with
    | (s', inr r) => (s', [Write r])
    | (s', inl e) => (s', [Next e])
    end.
Proof.
  unfold asyncHandler, async. destruct (f req s) as [s' [e|r]]; reflexivity.
Qed.

(** ** Toggling the publish flag *)

Lemma togglePublishStatus_stored (env : Env) (req : Request) (s : Db)
    (id : Id) (v : VideoDoc.t) :
  params_videoId req = Some id ->
  videos s !! id = Some v ->
  let v' := touch env (set_isPublished (negb (VideoDoc.isPublished v)) v) in
  Handler.togglePublishStatus env req s
  = (set_videos (insert id v') s,
     inr {| status := 200;
            body := Success (new_ApiResponse 200 (DUpdatedVideo id v')
                               "Publish status toggled successfully") |}).
Proof.
  intros Hid Hv. unfold Handler.togglePublishStatus. rewrite Hid.
  unfold bind, Video.findById, gets, Video.save, send, ret.
  rewrite Hv. simpl. rewrite Hv. reflexivity.
Qed.

(** C7. For every stored video, two toggles in a row both succeed; the
    first negates the published flag and the second returns it to its
    original value.  Of the whole database only the video's [updatedAt]
    has moved. *)
Theorem togglePublishStatus_involutive
    (env1 env2 : Env) (req : Request) (s : Db) (id : Id) (v : VideoDoc.t) :
  params_videoId req = Some id ->
  videos s !! id = Some v ->
  exists s1 s2 r1 r2,
    VideoController.togglePublishStatus env1 req s = (s1, [Write r1])
    ∧ VideoController.togglePublishStatus env2 req s1 = (s2, [Write r2])
    ∧ status r1 = 200%Z ∧ status r2 = 200%Z
    ∧ VideoDoc.isPublished <$> videos s1 !! id = Some (negb (VideoDoc.isPublished v))
    ∧ VideoDoc.isPublished <$> videos s2 !! id = Some (VideoDoc.isPublished v)
    ∧ s2 = set_videos (insert id (touch env2 v)) s.
Proof.
  intros Hid Hv.
  unfold VideoController.togglePublishStatus. rewrite wrapped_async.
  rewrite (togglePublishStatus_stored env1 req s id v Hid Hv). cbv zeta.
  set (v1 := touch env1 (set_isPublished (negb (VideoDoc.isPublished v)) v)).
  assert (H1 : videos (set_videos (insert id v1) s) !! id = Some v1)
    by (simpl; apply lookup_insert_eq).
  do 2 eexists. do 2 eexists. split; [reflexivity|].
  rewrite wrapped_async.
  rewrite (togglePublishStatus_stored env2 req _ id v1 Hid H1). cbv zeta.
  split; [reflexivity|]. split; [reflexivity|]. split; [reflexivity|].
  split; [by rewrite H1|].
  split.
  - simpl. rewrite lookup_insert_eq. simpl. by rewrite negb_involutive.
  - unfold set_videos. simpl. rewrite insert_insert_eq.
    unfold v1, touch, set_isPublished. simpl. rewrite negb_involutive.
    destruct v; reflexivity.
Qed.

(** ** Deleting a video *)

Lemma deleteVideo_stored (env : Env) (req : Request) (s : Db)
    (id : Id) (v : VideoDoc.t) :
  params_videoId req = Some id ->
  videos s !! id = Some v ->
  let vf := Image.publicId (VideoDoc.videoFile v) in
  let th := Image.publicId (VideoDoc.thumbnail v) in
  Handler.deleteVideo env req s
  = ({| users := users s; subscriptions := subscriptions s;
        videos := delete id (videos s);
        views := filter (fun w => ViewDoc.video w ≠ id) (views s);
        assets := (assets s ∖ (if destroy_ok env vf then {[vf]} else ∅))
                  ∖ (if destroy_ok env th then {[th]} else ∅);
        next_id := next_id s |},
     inr deleted_response).
Proof.
  intros Hid Hv. unfold Handler.deleteVideo. rewrite Hid.
  unfold bind, Video.findById, gets, deleteFromCloudinary,
    Video.findByIdAndDelete, View.deleteMany, send, ret.
  rewrite Hv.
  destruct (destroy_ok env (Image.publicId (VideoDoc.videoFile v)));
    destruct (destroy_ok env (Image.publicId (VideoDoc.thumbnail v)));
    simpl; rewrite Hv; simpl; unfold set_views, set_videos, deleted_response; simpl;
    rewrite ?difference_empty_L; reflexivity.
Qed.

Lemma views_of_filter_ne (id : Id) (l : list ViewDoc.t) :
  filter (fun w => ViewDoc.video w = id) (filter (fun w => ViewDoc.video w ≠ id) l) = [].
Proof.
  induction l as [|w l IH]; [done|].
  rewrite (filter_cons (fun w => ViewDoc.video w ≠ id)).
  destruct (decide (ViewDoc.video w ≠ id)) as [Hne|]; [|exact IH].
  rewrite filter_cons. destruct (decide (ViewDoc.video w = id)); [done|exact IH].
Qed.

(** C2. For every stored video, [deleteVideo] answers with success after
    it has asked the object storage to delete the video file and the
    thumbnail (both are gone when the storage carries the deletions out),
    deleted the video row and deleted the view rows of that video: a
    query for the view rows of the video then returns none, and the view
    rows of other videos are as before. *)
Theorem deleteVideo_cascade (env : Env) (req : Request) (s : Db)
    (id : Id) (v : VideoDoc.t) :
  params_videoId req = Some id ->
  videos s !! id = Some v ->
  let vf := Image.publicId (VideoDoc.videoFile v) in
  let th := Image.publicId (VideoDoc.thumbnail v) in
  exists s',
    VideoController.deleteVideo env req s = (s', [Write deleted_response])
    ∧ (destroy_ok env vf = true -> destroy_ok env th = true ->
       (vf ∉ assets s') ∧ (th ∉ assets s'))
    ∧ videos s' !! id = None
    ∧ views_of id s' = []
    ∧ (forall other, other ≠ id -> views_of other s' = views_of other s).
Proof.
  intros Hid Hv vf th.
  unfold VideoController.deleteVideo. rewrite wrapped_async.
  rewrite (deleteVideo_stored env req s id v Hid Hv). cbv zeta.
  eexists. split; [reflexivity|]. simpl.
  split; [|split; [|split]].
  - fold vf th. intros H1 H2. rewrite H1, H2.
    split; rewrite !elem_of_difference, !elem_of_singleton; tauto.
  - apply lookup_delete_eq.
  - unfold views_of. simpl. apply views_of_filter_ne.
  - intros other Hne. unfold views_of. simpl.
    induction (views s) as [|w l IH]; [done|].
    rewrite (filter_cons (fun w => ViewDoc.video w ≠ id)).
    rewrite (filter_cons (fun w => ViewDoc.video w = other) w l).
    destruct (decide (ViewDoc.video w ≠ id)) as [Hw|Hw].
    + rewrite filter_cons. destruct (decide (ViewDoc.video w = other)); by rewrite IH.
    + destruct (decide (ViewDoc.video w = other)) as [Ho|]; [|exact IH].
      exfalso. apply Hw. congruence.
Qed.

(** A delete that answers with success leaves no row of the video and no
    view row of it, whatever the storage did. *)
Lemma deleteVideo_success_no_views (env : Env) (req : Request) (s s' : Db)
    (id : Id) (r : Response) :
  params_videoId req = Some id ->
  VideoController.deleteVideo env req s = (s', [Write r]) ->
  videos s' !! id = None ∧ views_of id s' = [].
Proof.
  intros Hid Hrun.
  destruct (videos s !! id) as [v|] eqn:Hv.
  - revert Hrun. unfold VideoController.deleteVideo. rewrite wrapped_async.
    rewrite (deleteVideo_stored env req s id v Hid Hv). cbv zeta.
    intros [= <- _]. simpl. split; [apply lookup_delete_eq|].
    unfold views_of. simpl. apply views_of_filter_ne.
  - exfalso. revert Hrun.
    unfold VideoController.deleteVideo. rewrite wrapped_async.
    unfold Handler.deleteVideo. rewrite Hid.
    unfold bind, Video.findById, gets. rewrite Hv. simpl. discriminate.
Qed.

(** ** The invariant of the view rows *)

Lemma inv_initial s : initial s -> inv s.
Proof.
  intros [Hv Hw]. split.
  - intros id v. rewrite Hv. by rewrite lookup_empty.
  - intros w. rewrite Hw. by intros ?%elem_of_nil.
  - intros w v. rewrite Hw. by intros ?%elem_of_nil.
  - intros video viewer. unfold view_rows. rewrite Hw. simpl. lia.
Qed.

Lemma filter_sublist_mono {A} (P : A -> Prop) `{!forall x, Decision (P x)}
    (l1 l2 : list A) :
  l1 `sublist_of` l2 -> filter P l1 `sublist_of` filter P l2.
Proof.
  induction 1 as [|x l1 l2 _ IH|x l1 l2 _ IH]; [done| |].
  - rewrite !filter_cons. destruct (decide (P x)); [by constructor|done].
  - rewrite filter_cons. destruct (decide (P x)); [by constructor|done].
Qed.

(** Rows may go, users, subscriptions and assets may change, and the
    counter may grow. *)
Lemma inv_shrink (s s' : Db) :
  videos s' = videos s ->
  views s' `sublist_of` views s ->
  next_id s <= next_id s' ->
  inv s -> inv s'.
Proof.
  intros Hv Hw Hn [I1 I2 I3 I4]. split.
  - intros id v. rewrite Hv. intros H%I1. lia.
  - intros w Hin. assert (w ∈ views s) as H%I2 by (by eapply elem_of_sublist). lia.
  - intros w v Hin. rewrite Hv. apply I3. by eapply elem_of_sublist.
  - intros video viewer. specialize (I4 video viewer).
    unfold view_rows in *.
    pose proof (sublist_length _ _
      (filter_sublist_mono
         (fun w => ViewDoc.video w = video ∧ ViewDoc.viewer w = viewer) _ _ Hw)).
    lia.
Qed.

(** A video may be rewritten as long as its publisher stays. *)
Lemma inv_update_video (s : Db) (id : Id) (v v' : VideoDoc.t) :
  videos s !! id = Some v ->
  VideoDoc.publisher v' = VideoDoc.publisher v ->
  inv s -> inv (set_videos (insert id v') s).
Proof.
  intros Hv Hp [I1 I2 I3 I4]. split; simpl.
  - intros id' v0. destruct (decide (id = id')) as [<-|Hne].
    + intros _. by eapply I1.
    + rewrite lookup_insert_ne by done. apply I1.
  - exact I2.
  - intros w v0 Hin. destruct (decide (id = ViewDoc.video w)) as [->|Hne].
    + rewrite lookup_insert_eq. intros [= <-]. rewrite Hp. by apply I3.
    + rewrite lookup_insert_ne by done. by apply I3.
  - exact I4.
Qed.

Lemma inv_delete_video (s : Db) (id : Id) :
  inv s -> inv (set_videos (delete id) s).
Proof.
  intros [I1 I2 I3 I4]. split; simpl.
  - intros id' v Hl. apply lookup_delete_Some in Hl as [_ Hl]. by eapply I1.
  - exact I2.
  - intros w v Hin Hl. apply lookup_delete_Some in Hl as [_ Hl]. by eapply I3.
  - exact I4.
Qed.

Lemma keeps_ret {A} (a : A) : keeps (ret a).
Proof. by intros s. Qed.

Lemma keeps_throw {A} (e : Error) : keeps (@throw A e).
Proof. by intros s. Qed.

Lemma keeps_gets {A} (f : Db -> A) : keeps (gets f).
Proof. by intros s. Qed.

Lemma keeps_bind {A B} (m : M A) (k : A -> M B) :
  keeps m -> (forall a, keeps (k a)) -> keeps (bind m k).
Proof.
  intros Hm Hk s Hs. unfold bind. specialize (Hm s Hs).
  destruct (m s) as [s' [e|a]]; simpl in *; [done|]. by apply Hk.
Qed.

Lemma keeps_uploadOnCloudinary env path : keeps (uploadOnCloudinary env path).
Proof.
  intros s Hs. unfold uploadOnCloudinary. destruct (upload env path); [|done].
  simpl. by eapply inv_shrink; [..|exact Hs].
Qed.

Lemma keeps_deleteFromCloudinary env publicId :
  keeps (deleteFromCloudinary env publicId).
Proof.
  intros s Hs. unfold deleteFromCloudinary. destruct (destroy_ok env publicId); [|done].
  simpl. by eapply inv_shrink; [..|exact Hs].
Qed.

Lemma keeps_findByIdAndUpdate env id set :
  (forall v, VideoDoc.publisher (set v) = VideoDoc.publisher v) ->
  keeps (Video.findByIdAndUpdate env id set).
Proof.
  intros Hset s Hs. unfold Video.findByIdAndUpdate.
  destruct (videos s !! id) as [v|] eqn:Hv; [|done]. simpl.
  eapply inv_update_video; [exact Hv| |exact Hs]. simpl. apply Hset.
Qed.

Lemma keeps_findByIdAndDelete id : keeps (Video.findByIdAndDelete id).
Proof.
  intros s Hs. unfold Video.findByIdAndDelete.
  destruct (videos s !! id); [|done]. simpl. by apply inv_delete_video.
Qed.

Lemma keeps_deleteMany id : keeps (View.deleteMany id).
Proof.
  intros s Hs. unfold View.deleteMany. simpl.
  eapply inv_shrink; [..|exact Hs]; simpl; [done| |done].
  apply sublist_filter.
Qed.

Lemma keeps_Video_create env vf th d p t ds : keeps (Video.create env vf th d p t ds).
Proof.
  intros s [I1 I2 I3 I4]. unfold Video.create. split; simpl.
  - intros id v. destruct (decide (next_id s = id)) as [<-|Hne].
    + intros _. lia.
    + rewrite lookup_insert_ne by done. intros H%I1. lia.
  - intros w H%I2. lia.
  - intros w v Hin. destruct (decide (next_id s = ViewDoc.video w)) as [Heq|Hne].
    + apply I2 in Hin. lia.
    + rewrite lookup_insert_ne by done. by apply I3.
  - exact I4.
Qed.

Ltac keeps_step :=
  lazymatch goal with
  | |- keeps (bind _ _) => apply keeps_bind; [|intros ?]
  | |- keeps (ret _) => apply keeps_ret
  | |- keeps (send _ _) => apply keeps_ret
  | |- keeps (throw _) => apply keeps_throw
  | |- keeps (gets _) => apply keeps_gets
  | |- keeps (Video.findById _) => apply keeps_gets
  | |- keeps (uploadOnCloudinary _ _) => apply keeps_uploadOnCloudinary
  | |- keeps (deleteFromCloudinary _ _) => apply keeps_deleteFromCloudinary
  | |- keeps (Video.findByIdAndUpdate _ _ _) =>
      apply keeps_findByIdAndUpdate; intros []; reflexivity
  | |- keeps (Video.findByIdAndDelete _) => apply keeps_findByIdAndDelete
  | |- keeps (View.deleteMany _) => apply keeps_deleteMany
  | |- keeps (Video.create _ _ _ _ _ _ _) => apply keeps_Video_create
  | |- keeps (match ?x with _ => _ end) => destruct x
  end.

Lemma keeps_getVideos env req : keeps (Handler.getVideos env req).
Proof. unfold Handler.getVideos. cbv zeta. repeat keeps_step. Qed.

Lemma keeps_publishVideo env req : keeps (Handler.publishVideo env req).
Proof. unfold Handler.publishVideo. repeat keeps_step. Qed.

Lemma keeps_changeVideoFile env req : keeps (Handler.changeVideoFile env req).
Proof. unfold Handler.changeVideoFile. repeat keeps_step. Qed.

Lemma keeps_changeThumbnail env req : keeps (Handler.changeThumbnail env req).
Proof. unfold Handler.changeThumbnail. repeat keeps_step. Qed.

Lemma keeps_changeTitle env req : keeps (Handler.changeTitle env req).
Proof. unfold Handler.changeTitle. repeat keeps_step. Qed.

Lemma keeps_changeDescription env req : keeps (Handler.changeDescription env req).
Proof. unfold Handler.changeDescription. repeat keeps_step. Qed.

Lemma keeps_deleteVideo env req : keeps (Handler.deleteVideo env req).
Proof. unfold Handler.deleteVideo. repeat keeps_step. Qed.

Lemma keeps_togglePublishStatus env req :
  keeps (Handler.togglePublishStatus env req).
Proof.
  intros s Hs.
  destruct (params_videoId req) as [id|] eqn:Hid.
  - destruct (videos s !! id) as [v|] eqn:Hv.
    + rewrite (togglePublishStatus_stored env req s id v Hid Hv). simpl.
      by eapply inv_update_video; [exact Hv| |exact Hs].
    + unfold Handler.togglePublishStatus. rewrite Hid.
      unfold bind, Video.findById, gets. by rewrite Hv.
  - unfold Handler.togglePublishStatus. by rewrite Hid.
Qed.

(** ** Fetching a video *)

Lemma remove_first_sublist p l : snd (View.remove_first p l) `sublist_of` l.
Proof.
  induction l as [|w r IH]; simpl; [done|].
  destruct (p w); simpl; [by apply sublist_cons|].
  destruct (View.remove_first p r) as [found r']. simpl in *. by apply sublist_skip.
Qed.

(** When the filter of [findOneAndDelete] selects the rows of [Q], the
    rows of [Q] lose their first. *)
Lemma remove_first_filter (Q : ViewDoc.t -> Prop) `{!forall w, Decision (Q w)}
    (p : ViewDoc.t -> bool) (l : list ViewDoc.t) :
  (forall w, w ∈ l -> Q w -> p w = true) ->
  (forall w, p w = true -> Q w) ->
  filter Q (snd (View.remove_first p l)) = tail (filter Q l).
Proof.
  intros H1 H2. induction l as [|w r IH]; simpl; [done|].
  destruct (p w) eqn:Hp; simpl.
  - by rewrite (filter_cons_True Q w r) by (by apply H2).
  - destruct (View.remove_first p r) as [found r'] eqn:Hr. simpl in *.
    assert (Hn : ¬ Q w).
    { intros Hq. rewrite H1 in Hp; [done|apply list_elem_of_here|done]. }
    rewrite !filter_cons_False by done. apply IH.
    intros w' Hin. apply H1. by apply list_elem_of_further.
Qed.

(** What a fetch of a stored video with an existing publisher does. *)
Lemma getVideo_stored (env : Env) (req : Request) (s : Db)
    (id p : Id) (v : VideoDoc.t) (u : UserDoc.t) :
  params_videoId req = Some id ->
  videos s !! id = Some v ->
  VideoDoc.publisher v = Some p ->
  users s !! p = Some u ->
  let w := {| ViewDoc._id := next_id s; ViewDoc.video := id; ViewDoc.owner := p;
              ViewDoc.viewer := user req; ViewDoc.createdAt := now env |} in
  exists d,
    Video.aggregate_detail id (user req) s = [d]
    ∧ Handler.getVideo env req s
      = (bump_id (set_views
            (fun _ => snd (View.remove_first (View.matches id p (user req)) (views s))
                      ++ [w]) s),
         inr (fetched_response d)).
Proof.
  intros Hid Hv Hp Hu w. unfold Handler.getVideo. rewrite Hid.
  unfold bind, gets, Video.aggregate_detail. rewrite Hv, Hp, Hu.
  eexists. split; [reflexivity|]. simpl.
  unfold View.findOneAndDelete. simpl.
  destruct (View.remove_first _ (views s)) as [found rest]. reflexivity.
Qed.

(** A video that is not stored, or whose publisher has no account, is not
    fetched: the handler raises and records no view. *)
Lemma getVideo_miss (env : Env) (req : Request) (s : Db) (id : Id) :
  params_videoId req = Some id ->
  Video.aggregate_detail id (user req) s = [] ->
  Handler.getVideo env req s
  = (s, inl (ApiError 500 "Something went wrong while fetching the video")).
Proof.
  intros Hid Hd. unfold Handler.getVideo. rewrite Hid.
  unfold bind, gets. by rewrite Hd.
Qed.

Lemma view_rows_after_fetch (s : Db) (id p : Id) (viewer : option Id)
    (v : VideoDoc.t) (w : ViewDoc.t) :
  inv s ->
  videos s !! id = Some v ->
  VideoDoc.publisher v = Some p ->
  ViewDoc.video w = id -> ViewDoc.viewer w = viewer ->
  filter (fun w => ViewDoc.video w = id ∧ ViewDoc.viewer w = viewer)
    (snd (View.remove_first (View.matches id p viewer) (views s)) ++ [w]) = [w].
Proof.
  intros [I1 I2 I3 I4] Hv Hp Hwv Hwr.
  rewrite filter_app, filter_cons_True, filter_nil by done.
  rewrite remove_first_filter.
  - specialize (I4 id viewer). unfold view_rows in I4.
    destruct (filter _ (views s)) as [|a [|b l]]; simpl in *; [done|done|lia].
  - intros w' Hin [Hv' Hr']. unfold View.matches.
    rewrite !bool_decide_eq_true_2; [done|done| |done].
    specialize (I3 w' v Hin). rewrite Hv' in I3. specialize (I3 Hv). congruence.
  - intros w'. unfold View.matches. rewrite !andb_true_iff, !bool_decide_eq_true.
    tauto.
Qed.

Lemma keeps_getVideo env req : keeps (Handler.getVideo env req).
Proof.
  intros s Hs.
  destruct (params_videoId req) as [id|] eqn:Hid;
    [|unfold Handler.getVideo; by rewrite Hid].
  destruct (Video.aggregate_detail id (user req) s) as [|d l] eqn:Hd;
    [by rewrite (getVideo_miss env req s id Hid Hd)|].
  revert Hd. unfold Video.aggregate_detail.
  destruct (videos s !! id) as [v|] eqn:Hv; [|done].
  destruct (VideoDoc.publisher v) as [p|] eqn:Hp; [|done].
  destruct (users s !! p) as [u|] eqn:Hu; [|done]. intros _.
  destruct (getVideo_stored env req s id p v u Hid Hv Hp Hu) as (d' & _ & ->).
  simpl. pose proof Hs as [I1 I2 I3 I4]. split; simpl.
  - intros id' v' H%I1. lia.
  - intros w' [Hin| ->%list_elem_of_singleton]%elem_of_app.
    + eapply elem_of_sublist in Hin; [|apply remove_first_sublist].
      apply I2 in Hin. lia.
    + simpl. apply I1 in Hv. lia.
  - intros w' v' [Hin| ->%list_elem_of_singleton]%elem_of_app.
    + eapply elem_of_sublist in Hin; [|apply remove_first_sublist]. by apply I3.
    + simpl. rewrite Hv. by intros [= <-].
  - intros video viewer. unfold view_rows. simpl.
    destruct (decide (video = id ∧ viewer = user req)) as [[-> ->]|Hne].
    + by erewrite view_rows_after_fetch.
    + rewrite filter_app, filter_cons_False, filter_nil, app_nil_r
        by (simpl; intros [<- <-]; by apply Hne).
      specialize (I4 video viewer). unfold view_rows in I4.
      pose proof (sublist_length _ _
        (filter_sublist_mono
           (fun w => ViewDoc.video w = video ∧ ViewDoc.viewer w = viewer) _ _
           (remove_first_sublist (View.matches id p (user req)) (views s)))).
      lia.
Qed.

Lemma keeps_handlers h env req : h ∈ handlers -> keeps (h env req).
Proof.
  unfold handlers. rewrite !elem_of_cons, elem_of_nil.
  intros [->|[->|[->|[->|[->|[->|[->|[->|[->|[]]]]]]]]]].
  - apply keeps_getVideos.
  - apply keeps_publishVideo.
  - apply keeps_getVideo.
  - apply keeps_changeVideoFile.
  - apply keeps_changeThumbnail.
  - apply keeps_changeTitle.
  - apply keeps_changeDescription.
  - apply keeps_deleteVideo.
  - apply keeps_togglePublishStatus.
Qed.

Lemma step_inv s s' : step s s' -> inv s -> inv s'.
Proof.
  intros [h env req s0 Hh | s0 us ss az n Hn] Hs.
  - by apply keeps_handlers.
  - by eapply inv_shrink; [..|exact Hs].
Qed.

(** Every state the backend reaches satisfies the invariant. *)
Lemma reachable_inv s : reachable s -> inv s.
Proof.
  induction 1 as [s Hi|s s' _ IH Hstep]; [by apply inv_initial|].
  by eapply step_inv.
Qed.

Lemma db1_reachable : reachable db1.
Proof.
  apply (reachable_step db0).
  - apply reachable_initial. by split.
  - apply (step_video Handler.publishVideo). unfold handlers.
    rewrite !elem_of_cons. tauto.
Qed.

Lemma db1_video : videos db1 !! 2 = Some video_a.
Proof. reflexivity. Qed.

(** C1. In every state the backend reaches, for every stored video whose
    publisher has an account and every viewer: a fetch removes the view
    row of the (video, owner, viewer) triple and appends a fresh one, and
    after two fetches in a row the (video, viewer) pair has exactly one
    view row, stamped with the time of the second fetch. *)
Theorem getVideo_twice_one_view
    (env1 env2 : Env) (req : Request) (s : Db)
    (id p viewer : Id) (v : VideoDoc.t) (u : UserDoc.t) :
  reachable s ->
  params_videoId req = Some id ->
  user req = Some viewer ->
  videos s !! id = Some v ->
  VideoDoc.publisher v = Some p ->
  users s !! p = Some u ->
  exists s1 s2 r1 r2 w1 w2,
    VideoController.getVideo env1 req s = (s1, [Write r1])
    ∧ VideoController.getVideo env2 req s1 = (s2, [Write r2])
    ∧ status r1 = 200%Z ∧ status r2 = 200%Z
    ∧ views s1
      = snd (View.remove_first (View.matches id p (Some viewer)) (views s)) ++ [w1]
    ∧ views s2
      = snd (View.remove_first (View.matches id p (Some viewer)) (views s1)) ++ [w2]
    ∧ view_rows id (Some viewer) s1 = [w1]
    ∧ ViewDoc.createdAt w1 = now env1
    ∧ view_rows id (Some viewer) s2 = [w2]
    ∧ ViewDoc.createdAt w2 = now env2.
Proof.
  intros Hreach Hid Hviewer Hv Hp Hu. rewrite <- Hviewer.
  pose proof (reachable_inv s Hreach) as Hs.
  pose proof (keeps_getVideo env1 req s Hs) as Hs1.
  unfold VideoController.getVideo. rewrite wrapped_async.
  destruct (getVideo_stored env1 req s id p v u Hid Hv Hp Hu) as (d1 & _ & E1).
  rewrite E1 in Hs1 |- *. simpl in Hs1.
  set (s1 := bump_id _) in *.
  assert (Hv1 : videos s1 !! id = Some v) by exact Hv.
  assert (Hu1 : users s1 !! p = Some u) by exact Hu.
  destruct (getVideo_stored env2 req s1 id p v u Hid Hv1 Hp Hu1) as (d2 & _ & E2).
  eexists s1, _, _, _, _, _.
  split; [reflexivity|]. rewrite wrapped_async, E2.
  split; [reflexivity|]. split; [reflexivity|]. split; [reflexivity|].
  split; [reflexivity|]. split; [reflexivity|].
  split; [|split; [reflexivity|split; [|reflexivity]]].
  - unfold view_rows. simpl. by erewrite view_rows_after_fetch.
  - unfold view_rows. simpl.
    by erewrite (view_rows_after_fetch s1 id p (user req) v).
Qed.

Lemma getVideo_twice_one_view_witness :
  reachable db1
  ∧ videos db1 !! 2 = Some video_a
  ∧ users db1 !! 1 = Some alice
  ∧ exists s1 s2 r1 r2 w2,
      VideoController.getVideo (env_up 200) (req_video (Some 1)) db1 = (s1, [Write r1])
      ∧ VideoController.getVideo (env_up 300) (req_video (Some 1)) s1 = (s2, [Write r2])
      ∧ view_rows 2 (Some 1) s2 = [w2]
      ∧ ViewDoc.createdAt w2 = 300.
Proof.
  split; [exact db1_reachable|]. split; [reflexivity|]. split; [reflexivity|].
  destruct (getVideo_twice_one_view (env_up 200) (env_up 300) (req_video (Some 1))
              db1 2 1 1 video_a alice db1_reachable eq_refl eq_refl eq_refl eq_refl
              eq_refl)
    as (s1 & s2 & r1 & r2 & w1 & w2 & H1 & H2 & _ & _ & _ & _ & _ & _ & H9 & H10).
  exists s1, s2, r1, r2, w2. auto.
Defined.

(** The invariant is what the count rests on: put two rows of one triple
    in the collection, a state no sequence of requests leads to, and a
    fetch removes only the first of them. *)
Example getVideo_two_stale_rows :
  let stale t := {| ViewDoc._id := t; ViewDoc.video := 2; ViewDoc.owner := 1;
                    ViewDoc.viewer := Some 1; ViewDoc.createdAt := t |} in
  let s := set_views (fun _ => [stale 10; stale 11]) db1 in
  length (view_rows 2 (Some 1)
            (fst (Handler.getVideo (env_up 200) (req_video (Some 1)) s))) = 2%nat.
Proof. reflexivity. Qed.

(** ** Failing steps of the mutation handlers *)

Lemma deleteVideo_storage_down (env : Env) (req : Request) (s : Db)
    (id : Id) (v : VideoDoc.t) :
  params_videoId req = Some id ->
  videos s !! id = Some v ->
  destroy_ok env (Image.publicId (VideoDoc.videoFile v)) = false ->
  destroy_ok env (Image.publicId (VideoDoc.thumbnail v)) = false ->
  exists s',
    VideoController.deleteVideo env req s = (s', [Write deleted_response])
    ∧ assets s' = assets s
    ∧ videos s' !! id = None.
Proof.
  intros Hid Hv H1 H2. unfold VideoController.deleteVideo. rewrite wrapped_async.
  rewrite (deleteVideo_stored env req s id v Hid Hv). cbv zeta. rewrite H1, H2.
  eexists. split; [reflexivity|]. simpl. split.
  - by rewrite !difference_empty_L.
  - apply lookup_delete_eq.
Qed.

(** C5, at a failing input.  The storage service is down when [video_a] is
    deleted: [deleteVideo] takes no notice of the two failed deletions,
    deletes the rows and answers with success, leaving both media assets
    in the storage. *)
Theorem deleteVideo_storage_failure_unreported :
  exists s',
    VideoController.deleteVideo (env_down 200) (req_video (Some 1)) db1
    = (s', [Write deleted_response])
    ∧ success (new_ApiResponse 200 DEmpty "Video deleted successfully") = true
    ∧ "clip.mp4"%string ∈ assets s'
    ∧ "clip.png"%string ∈ assets s'
    ∧ videos s' !! 2 = None.
Proof.
  destruct (deleteVideo_storage_down (env_down 200) (req_video (Some 1)) db1 2 video_a
              eq_refl db1_video eq_refl eq_refl) as (s' & Hrun & Ha & Hv).
  exists s'. split; [exact Hrun|]. split; [reflexivity|].
  rewrite Ha. split; [|split; [|exact Hv]].
  - simpl. rewrite !elem_of_union, !elem_of_singleton. tauto.
  - simpl. rewrite !elem_of_union, !elem_of_singleton. tauto.
Qed.

(** The sibling handlers test the same helper's answer and raise. *)
Lemma changeVideoFile_storage_down (env : Env) (req : Request) (s : Db)
    (id : Id) (v : VideoDoc.t) (path : string) :
  params_videoId req = Some id ->
  present (file_path req) = Some path ->
  videos s !! id = Some v ->
  destroy_ok env (Image.publicId (VideoDoc.videoFile v)) = false ->
  VideoController.changeVideoFile env req s
  = (s, [Next (ApiError 500
           "Something went wrong while deleting the old video file from cloudinary")]).
Proof.
  intros Hid Hpath Hv Hd. unfold VideoController.changeVideoFile.
  rewrite wrapped_async. unfold Handler.changeVideoFile. rewrite Hid, Hpath.
  unfold bind, Video.findById, gets, deleteFromCloudinary. rewrite Hv. simpl.
  by rewrite Hd.
Qed.

Lemma changeThumbnail_storage_down (env : Env) (req : Request) (s : Db)
    (id : Id) (v : VideoDoc.t) (path : string) :
  params_videoId req = Some id ->
  present (file_path req) = Some path ->
  videos s !! id = Some v ->
  destroy_ok env (Image.publicId (VideoDoc.thumbnail v)) = false ->
  VideoController.changeThumbnail env req s
  = (s, [Next (ApiError 500
           "Something went wrong while deleting the old thumbnail from cloudinary")]).
Proof.
  intros Hid Hpath Hv Hd. unfold VideoController.changeThumbnail.
  rewrite wrapped_async. unfold Handler.changeThumbnail. rewrite Hid, Hpath.
  unfold bind, Video.findById, gets, deleteFromCloudinary. rewrite Hv. simpl.
  by rewrite Hd.
Qed.

(** A failed upload is raised after the old asset has gone: nothing is
    rolled back. *)
Lemma changeVideoFile_upload_down (env : Env) (req : Request) (s : Db)
    (id : Id) (v : VideoDoc.t) (path : string) :
  params_videoId req = Some id ->
  present (file_path req) = Some path ->
  videos s !! id = Some v ->
  destroy_ok env (Image.publicId (VideoDoc.videoFile v)) = true ->
  upload env path = None ->
  VideoController.changeVideoFile env req s
  = (set_assets (fun a => a ∖ {[Image.publicId (VideoDoc.videoFile v)]}) s,
     [Next (ApiError 500
        "Something went wrong while uploading the new video file in cloudinary")]).
Proof.
  intros Hid Hpath Hv Hd Hu. unfold VideoController.changeVideoFile.
  rewrite wrapped_async. unfold Handler.changeVideoFile. rewrite Hid, Hpath.
  unfold bind, Video.findById, gets, deleteFromCloudinary, uploadOnCloudinary.
  rewrite Hv. simpl. rewrite Hd. simpl. by rewrite Hu.
Qed.

Lemma changeTitle_missing (env : Env) (req : Request) (s : Db)
    (id : Id) (title : string) :
  params_videoId req = Some id ->
  present (body_title req) = Some title ->
  videos s !! id = None ->
  VideoController.changeTitle env req s
  = (s, [Next (ApiError 500 "Something went wrong while updating the video title")]).
Proof.
  intros Hid Ht Hv. unfold VideoController.changeTitle. rewrite wrapped_async.
  unfold Handler.changeTitle. rewrite Hid, Ht.
  unfold bind, Video.findByIdAndUpdate. by rewrite Hv.
Qed.

Lemma deleteVideo_missing (env : Env) (req : Request) (s : Db) (id : Id) :
  params_videoId req = Some id ->
  videos s !! id = None ->
  VideoController.deleteVideo env req s
  = (s, [Next (ApiError 500 "Something went wrong while fetching the video")]).
Proof.
  intros Hid Hv. unfold VideoController.deleteVideo. rewrite wrapped_async.
  unfold Handler.deleteVideo. rewrite Hid.
  unfold bind, Video.findById, gets. by rewrite Hv.
Qed.

Lemma togglePublishStatus_involutive_witness :
  videos db1 !! 2 = Some video_a
  ∧ exists s1 s2 r1 r2,
      VideoController.togglePublishStatus (env_up 200) (req_video (Some 1)) db1
      = (s1, [Write r1])
      ∧ VideoController.togglePublishStatus (env_up 300) (req_video (Some 1)) s1
        = (s2, [Write r2])
      ∧ VideoDoc.isPublished <$> videos s1 !! 2 = Some false
      ∧ VideoDoc.isPublished <$> videos s2 !! 2 = Some true.
Proof.
  split; [reflexivity|].
  destruct (togglePublishStatus_involutive (env_up 200) (env_up 300)
              (req_video (Some 1)) db1 2 video_a eq_refl eq_refl)
    as (s1 & s2 & r1 & r2 & H1 & H2 & _ & _ & H5 & H6 & _).
  exists s1, s2, r1, r2. auto.
Defined.

Lemma deleteVideo_cascade_witness :
  videos db1 !! 2 = Some video_a
  ∧ destroy_ok (env_up 400) "clip.mp4" = true
  ∧ destroy_ok (env_up 400) "clip.png" = true
  ∧ exists s',
      VideoController.deleteVideo (env_up 400) (req_video (Some 1))
        (fst (VideoController.getVideo (env_up 200) (req_video (Some 1)) db1))
      = (s', [Write deleted_response])
      ∧ ("clip.mp4"%string ∉ assets s')
      ∧ ("clip.png"%string ∉ assets s')
      ∧ videos s' !! 2 = None
      ∧ views_of 2 s' = [].
Proof.
  split; [reflexivity|]. split; [reflexivity|]. split; [reflexivity|].
  destruct (deleteVideo_cascade (env_up 400) (req_video (Some 1))
              (fst (VideoController.getVideo (env_up 200) (req_video (Some 1)) db1))
              2 video_a eq_refl eq_refl)
    as (s' & Hrun & Ha & Hv & Hw & _).
  destruct (Ha eq_refl eq_refl) as [Ha1 Ha2].
  exists s'. auto.
Defined.

(** ** The user model *)

Section UserModelFacts.

Variable bcrypt_hash : string -> N -> string -> string.
Variable bcrypt_compare : string -> string -> bool.

Lemma isModified_assign_password (p : string) (d : UserModel.document) :
  UserModel.isModified "password" d = true ->
  UserModel.modifiedPaths (UserModel.assign_password p d) = UserModel.modifiedPaths d.
Proof.
  unfold UserModel.isModified. intros H%bool_decide_eq_true. simpl.
  destruct (_ || _); [|done].
  apply set_eq. intros x. rewrite elem_of_union, elem_of_singleton.
  split; [intros [->|]; done | auto].
Qed.

(** The hook: one call of [bcrypt.hash] on the password with ten rounds
    when the password is modified, no call and no change otherwise. *)
Lemma pre_save_spec (salt : string) (d : UserModel.document) :
  UserModel.pre_save bcrypt_hash salt d
  = if UserModel.isModified "password" d
    then (UserModel.assign_password
            (bcrypt_hash (UserDoc.password (UserModel.fields d)) 10 salt) d,
          [(UserDoc.password (UserModel.fields d), 10)])
    else (d, []).
Proof. reflexivity. Qed.

End UserModelFacts.

(** C8. On every save of a user document that reaches the hooks (its
    validation passes or is switched off), [bcrypt.hash] is called, once
    and on the password, exactly when the password was modified since the
    last save; a modified password is stored as the hash; a save that
    does not touch the password leaves the stored password as it was. *)
Theorem save_rehashes_iff_modified
    (bcrypt_hash : string -> N -> string -> string)
    (validateBeforeSave : bool) (salt : string)
    (d : UserModel.document) (store : gmap Id UserDoc.t) :
  let '(r, store', calls) :=
    UserModel.save bcrypt_hash validateBeforeSave salt d store in
  let password := UserDoc.password (UserModel.fields d) in
  ((validateBeforeSave = false ∨ UserModel.validate d = true) ->
     (calls = [(password, 10)] <-> UserModel.isModified "password" d = true))
  ∧ (UserModel.isModified "password" d = true -> r ≠ None ->
       UserDoc.password <$> store' !! UserModel._id d
       = Some (bcrypt_hash password 10 salt))
  ∧ (UserModel.isModified "password" d = false ->
       calls = []
       ∧ forall old, store !! UserModel._id d = Some old ->
           UserDoc.password <$> store' !! UserModel._id d
           = Some (UserDoc.password old)).
Proof.
  unfold UserModel.save.
  destruct (validateBeforeSave && negb (UserModel.validate d)) eqn:Hval.
  { apply andb_true_iff in Hval as [-> Hval%negb_true_iff].
    cbv zeta. split; [|split].
    - intros [?|?]; congruence.
    - intros _ H. by destruct H.
    - intros _. split; [done|]. intros old ->. done. }
  rewrite pre_save_spec.
  destruct (UserModel.isModified "password" d) eqn:Hmod.
  - pose proof (isModified_assign_password
                  (bcrypt_hash (UserDoc.password (UserModel.fields d)) 10 salt)
                  d Hmod) as Hpaths.
    set (d' := UserModel.assign_password _ d) in *.
    change (UserModel._id d') with (UserModel._id d).
    change (UserModel.isNew d') with (UserModel.isNew d).
    destruct (store !! UserModel._id d) as [old|] eqn:Hold;
      destruct (UserModel.isNew d) eqn:Hnew; cbv zeta;
      (split; [intros _; split; done|]); (split; [|discriminate]).
    + intros _ H. by destruct H.
    + intros _ _. rewrite lookup_insert_eq.
      unfold UserModel.write_modified. rewrite Hpaths.
      unfold UserModel.isModified in Hmod. cbn [fmap option_fmap option_map UserDoc.password].
      by rewrite Hmod.
    + intros _ _. by rewrite lookup_insert_eq.
    + intros _ H. by destruct H.
  - destruct (store !! UserModel._id d) as [old|] eqn:Hold;
      destruct (UserModel.isNew d) eqn:Hnew; cbv zeta;
      (split; [intros _; split; discriminate|]); (split; [discriminate|]);
      intros _; (split; [done|]); intros old'; try discriminate.
    + rewrite Hold. by intros [= <-].
    + intros [= <-]. rewrite lookup_insert_eq. simpl.
      unfold UserModel.isModified in Hmod. by rewrite Hmod.
Qed.

(** A saved document has no modified path left: saving it again, with
    nothing set in between, computes no hash. *)
Lemma save_again_no_rehash
    (bcrypt_hash : string -> N -> string -> string)
    (v1 v2 : bool) (salt1 salt2 : string)
    (d d' : UserModel.document) (store store' : gmap Id UserDoc.t)
    (calls : list (string * N)) :
  UserModel.save bcrypt_hash v1 salt1 d store = (Some d', store', calls) ->
  snd (UserModel.save bcrypt_hash v2 salt2 d' store') = [].
Proof.
  intros Hsave.
  assert (Hd' : UserModel.modifiedPaths d' = ∅).
  { revert Hsave. unfold UserModel.save.
    destruct (v1 && negb (UserModel.validate d)); [discriminate|].
    destruct (UserModel.pre_save bcrypt_hash salt1 d) as [d1 c1].
    destruct (store !! UserModel._id d1), (UserModel.isNew d1);
      try discriminate; by intros [= <- _ _]. }
  unfold UserModel.save.
  destruct (v2 && negb (UserModel.validate d')); [reflexivity|].
  unfold UserModel.pre_save, UserModel.isModified. rewrite Hd'.
  rewrite bool_decide_eq_false_2 by apply not_elem_of_empty.
  destruct (store' !! UserModel._id d'), (UserModel.isNew d'); reflexivity.
Qed.

Lemma save_rehashes_iff_modified_witness :
  (exists r store' calls,
     UserModel.save sample_hash false "salt"
       alice_password_set {[1 := alice]} = (r, store', calls)
     ∧ UserModel.isModified "password" alice_password_set = true
     ∧ calls = [("secret123"%string, 10)]
     ∧ UserDoc.password <$> store' !! 1 = Some "saltsecret123"%string)
  ∧ (exists r store' calls,
       UserModel.save sample_hash true "salt"
         alice_token_set {[1 := alice]} = (r, store', calls)
       ∧ UserModel.validate alice_token_set = true
       ∧ UserModel.isModified "password" alice_token_set = false
       ∧ calls = []
       ∧ UserDoc.password <$> store' !! 1 = Some "$2b$10$stored"%string).
Proof.
  split.
  - pose proof (save_rehashes_iff_modified sample_hash false "salt"
                  alice_password_set {[1 := alice]}) as H.
    destruct (UserModel.save sample_hash false "salt"
                alice_password_set {[1 := alice]})
      as [[r store'] calls] eqn:E.
    destruct H as (H1 & H2 & _).
    exists r, store', calls. split; [reflexivity|]. split; [reflexivity|].
    split.
    + apply H1; [by left|reflexivity].
    + apply (H2 eq_refl). vm_compute in E. by injection E as <- _ _.
  - pose proof (save_rehashes_iff_modified sample_hash true "salt"
                  alice_token_set {[1 := alice]}) as H.
    destruct (UserModel.save sample_hash true "salt"
                alice_token_set {[1 := alice]})
      as [[r store'] calls] eqn:E.
    destruct H as (_ & _ & H3).
    destruct (H3 eq_refl) as [Hc Hs].
    exists r, store', calls. split; [reflexivity|]. split; [reflexivity|].
    split; [reflexivity|]. split; [exact Hc|].
    apply (Hs alice). reflexivity.
Defined.

(** ** Passwords *)

Lemma substring_0_append (s t : string) :
  substring 0 (String.length s) (String.append s t) = s.
Proof. induction s as [|c s IH]; simpl; [by destruct t | by rewrite IH]. Qed.

Lemma append_inj_r (s a b : string) :
  String.append s a = String.append s b -> a = b.
Proof. induction s as [|c s IH]; simpl; [done|]. intros [= H]. by apply IH. Qed.

Section BcryptFacts.

Variable digest : string -> N -> string -> string.

Lemma rounds_of_hash (data salt : string) :
  Bcrypt.rounds_of (Bcrypt.hash digest data 10 salt) = 10.
Proof. reflexivity. Qed.

Lemma salt_of_hash (data salt : string) :
  String.length salt = 22%nat ->
  Bcrypt.salt_of (Bcrypt.hash digest data 10 salt) = salt.
Proof.
  intros H. unfold Bcrypt.salt_of, Bcrypt.hash.
  change (substring 0 22 (String.append salt
            (digest (Bcrypt.first72 data) 10 salt)) = salt).
  rewrite <- H. apply substring_0_append.
Qed.

(** Comparing a candidate with a hash made with ten rounds and a salt of 22
    characters compares the digests of the first 72 bytes. *)
Lemma compare_hash (candidate data salt : string) :
  String.length salt = 22%nat ->
  Bcrypt.compare digest candidate (Bcrypt.hash digest data 10 salt) = true
  <-> digest (Bcrypt.first72 candidate) 10 salt
      = digest (Bcrypt.first72 data) 10 salt.
Proof.
  intros H. unfold Bcrypt.compare.
  rewrite rounds_of_hash, (salt_of_hash _ _ H), bool_decide_eq_true.
  unfold Bcrypt.hash. split.
  - intros E. by do 4 apply append_inj_r in E.
  - by intros ->.
Qed.

(** A hash starts with the version tag and the cost. *)
Lemma hash_tagged (data salt : string) :
  Bcrypt.tagged (Bcrypt.hash digest data 10 salt) = true.
Proof. reflexivity. Qed.

(** What a save that goes through leaves behind when the password was
    modified: the hash, in the row and in the document. *)
Lemma save_modified_password
    (validateBeforeSave : bool) (salt : string)
    (d d' : UserModel.document) (store store' : gmap Id UserDoc.t)
    (calls : list (string * N)) :
  UserModel.isModified "password" d = true ->
  UserModel.save (Bcrypt.hash digest) validateBeforeSave salt d store
  = (Some d', store', calls) ->
  UserDoc.password <$> store' !! UserModel._id d
  = Some (Bcrypt.hash digest (UserDoc.password (UserModel.fields d)) 10 salt)
  ∧ UserDoc.password (UserModel.fields d')
    = Bcrypt.hash digest (UserDoc.password (UserModel.fields d)) 10 salt.
Proof.
  intros Hmod. unfold UserModel.save.
  destruct (validateBeforeSave && negb (UserModel.validate d)); [discriminate|].
  rewrite pre_save_spec, Hmod.
  pose proof (isModified_assign_password
                (Bcrypt.hash digest (UserDoc.password (UserModel.fields d)) 10 salt)
                d Hmod) as Hpaths.
  set (d1 := UserModel.assign_password _ d) in *.
  change (UserModel._id d1) with (UserModel._id d).
  change (UserModel.isNew d1) with (UserModel.isNew d).
  destruct (store !! UserModel._id d) as [old|] eqn:Hold;
    destruct (UserModel.isNew d) eqn:Hnew; try discriminate;
    intros [= <- <- _]; rewrite lookup_insert_eq; (split; [|reflexivity]).
  - change (UserModel.write_modified ?m old ?new)
      with (UserModel.write_modified (UserModel.modifiedPaths d1) old new).
    rewrite Hpaths. unfold UserModel.write_modified.
    unfold UserModel.isModified in Hmod.
    cbn [fmap option_fmap option_map UserDoc.password]. by rewrite Hmod.
  - reflexivity.
Qed.

End BcryptFacts.

(** C3, as amended. For every user saved with a plaintext password [p] (the
    password path of a new document is modified), with the salt of 22
    characters the library draws: the stored password field is the bcrypt
    hash of [p], which differs from [p] unless [p] itself starts like a
    hash; [isPasswordCorrect] returns true when given [p], and also when
    given any string with the same first 72 bytes as [p]; it returns true
    exactly for the strings whose digest under the stored salt is that of
    [p], and false for the others. *)
Theorem save_then_isPasswordCorrect
    (digest : string -> N -> string -> string)
    (validateBeforeSave : bool) (salt : string)
    (d d' : UserModel.document) (store store' : gmap Id UserDoc.t)
    (calls : list (string * N)) :
  String.length salt = 22%nat ->
  UserModel.isModified "password" d = true ->
  UserModel.save (Bcrypt.hash digest) validateBeforeSave salt d store
  = (Some d', store', calls) ->
  UserDoc.password <$> store' !! UserModel._id d
  = Some (Bcrypt.hash digest (UserDoc.password (UserModel.fields d)) 10 salt)
  ∧ (Bcrypt.tagged (UserDoc.password (UserModel.fields d)) = false ->
     Bcrypt.hash digest (UserDoc.password (UserModel.fields d)) 10 salt
     ≠ UserDoc.password (UserModel.fields d))
  ∧ UserModel.isPasswordCorrect (Bcrypt.compare digest) d'
      (UserDoc.password (UserModel.fields d)) = true
  ∧ (forall candidate,
       Bcrypt.first72 candidate
       = Bcrypt.first72 (UserDoc.password (UserModel.fields d)) ->
       UserModel.isPasswordCorrect (Bcrypt.compare digest) d' candidate = true)
  ∧ (forall candidate,
       UserModel.isPasswordCorrect (Bcrypt.compare digest) d' candidate = true
       <-> digest (Bcrypt.first72 candidate) 10 salt
           = digest (Bcrypt.first72 (UserDoc.password (UserModel.fields d)))
               10 salt).
Proof.
  intros Hsalt Hmod Hsave.
  destruct (save_modified_password digest _ _ _ _ _ _ _ Hmod Hsave)
    as [Hrow Hdoc].
  assert (Hcheck : forall candidate,
    UserModel.isPasswordCorrect (Bcrypt.compare digest) d' candidate = true
    <-> digest (Bcrypt.first72 candidate) 10 salt
        = digest (Bcrypt.first72 (UserDoc.password (UserModel.fields d)))
            10 salt).
  { intros candidate. unfold UserModel.isPasswordCorrect. rewrite Hdoc.
    by apply compare_hash. }
  split; [exact Hrow|]. split; [|split; [|split]].
  - intros Hp E. rewrite <- E in Hp at 1.
    by rewrite hash_tagged in Hp.
  - by apply Hcheck.
  - intros candidate E. apply Hcheck. by rewrite E.
  - exact Hcheck.
Qed.

Lemma save_then_isPasswordCorrect_witness :
  exists d' store' calls,
    UserModel.save (Bcrypt.hash sample_digest) true sample_salt
      (new_user 5 bob) ∅ = (Some d', store', calls)
    ∧ UserDoc.password <$> store' !! 5
      = Some "$2b$10$abcdefghijklmnopqrstuvsecret123"%string
    ∧ UserModel.isPasswordCorrect (Bcrypt.compare sample_digest) d' "secret123"
      = true
    ∧ UserModel.isPasswordCorrect (Bcrypt.compare sample_digest) d' "wrong"
      = false.
Proof.
  destruct (UserModel.save (Bcrypt.hash sample_digest) true sample_salt
              (new_user 5 bob) ∅) as [[[d'|] store'] calls] eqn:E;
    [|vm_compute in E; discriminate].
  destruct (save_then_isPasswordCorrect sample_digest true sample_salt
              (new_user 5 bob) d' ∅ store' calls eq_refl eq_refl E)
    as (Hrow & _ & Hp & _ & Hcheck).
  exists d', store', calls. split; [reflexivity|]. split; [exact Hrow|].
  split; [exact Hp|].
  destruct (UserModel.isPasswordCorrect (Bcrypt.compare sample_digest) d' "wrong")
    eqn:Hw; [|reflexivity].
  apply Hcheck in Hw. vm_compute in Hw. discriminate.
Defined.

(** C3, as worded, fails in its last clause: bcrypt reads the first 72
    bytes of a password only.  A user is registered with a password of 72
    letters; the check is then given another string, the same letters
    with one more, and answers true, whatever the cipher. *)
Lemma isPasswordCorrect_counterexample :
  password_73 ≠ password_72
  ∧ forall digest : string -> N -> string -> string,
      exists d' store',
        UserModel.save (Bcrypt.hash digest) true sample_salt
          (new_user 7 carol) ∅
        = (Some d', store', [(password_72, 10)])
        ∧ UserModel.isPasswordCorrect (Bcrypt.compare digest) d' password_73
          = true.
Proof.
  split; [by vm_compute|]. intros digest.
  assert (Hmod : UserModel.isModified "password" (new_user 7 carol) = true)
    by reflexivity.
  assert (Hsave : exists d' store',
    UserModel.save (Bcrypt.hash digest) true sample_salt (new_user 7 carol) ∅
    = (Some d', store', [(password_72, 10)])).
  { unfold UserModel.save.
    replace (UserModel.validate (new_user 7 carol)) with true by reflexivity.
    cbn [andb negb]. rewrite pre_save_spec, Hmod.
    cbn [UserModel._id UserModel.isNew UserModel.assign_password new_user].
    rewrite lookup_empty. by eexists _, _. }
  destruct Hsave as (d' & store' & Hsave).
  exists d', store'. split; [exact Hsave|].
  destruct (save_modified_password digest _ _ _ _ _ _ _ Hmod Hsave) as [_ Hdoc].
  unfold UserModel.isPasswordCorrect. rewrite Hdoc.
  apply compare_hash; reflexivity.
Qed.

(* ===================================================================== *)
(** * Further properties of the code                                      *)
(* ===================================================================== *)

(** ** Numbers in the query string *)

Lemma white_space_digit d : d < 10 -> Js.white_space (d + 48) = false.
Proof.
  intros H.
  assert (d = 0 ∨ d = 1 ∨ d = 2 ∨ d = 3 ∨ d = 4 ∨ d = 5 ∨ d = 6 ∨ d = 7
          ∨ d = 8 ∨ d = 9) as Hd by lia.
  repeat (destruct Hd as [->|Hd]; [reflexivity|]). by subst.
Qed.

Lemma radix_digit_10_char d : d < 10 -> Js.radix_digit 10 (d + 48) = Some d.
Proof.
  intros H. unfold Js.radix_digit, Js.digit_value.
  replace ((48 <=? d + 48) && (d + 48 <=? 57)) with true.
  - replace (d + 48 - 48) with d by lia.
    by replace (d <? 10) with true by (symmetry; apply N.ltb_lt; lia).
  - symmetry. apply andb_true_iff. split; apply N.leb_le; lia.
Qed.

Lemma radix_digit_10_other c :
  Spec.decimal_digit c = false -> Js.radix_digit 10 c = None.
Proof.
  intros H. destruct (Js.radix_digit 10 c) eqn:E; [|done].
  apply radix_digit_10_decimal in E. congruence.
Qed.

Lemma take_digits_10_chars ds rest :
  Forall (fun d => d < 10) ds ->
  match rest with c :: _ => Spec.decimal_digit c = false | [] => True end ->
  Js.take_digits 10 (((fun d => d + 48) <$> ds) ++ rest) = ds.
Proof.
  assert (Hcons : forall c r,
    Js.take_digits 10 (c :: r)
    = match Js.radix_digit 10 c with
      | Some d => d :: Js.take_digits 10 r
      | None => []
      end) by reflexivity.
  intros Hds Hrest. induction Hds as [|d ds Hd _ IH].
  - destruct rest as [|c r]; [done|]. simpl app.
    by rewrite Hcons, radix_digit_10_other.
  - rewrite fmap_cons, <- app_comm_cons, Hcons.
    rewrite radix_digit_10_char by done. by rewrite IH.
Qed.

Lemma trim_start_white ws s :
  Forall (fun c => Js.white_space c = true) ws ->
  Js.trim_start (ws ++ s) = Js.trim_start s.
Proof. induction 1 as [|c ws Hc _ IH]; simpl; [done|]. by rewrite Hc. Qed.

(** [parseInt] on white space, an optional sign, decimal digits and a rest
    that does not go on with a digit: the digits are read, the rest is
    ignored.  (A single [0] before [x] would start a hexadecimal
    number.) *)
Lemma parseInt_decimal (ws sign : Js.str) (ds : list N) (rest : Js.str) :
  Forall (fun c => Js.white_space c = true) ws ->
  sign = [] ∨ sign = [45] ∨ sign = [43] ->
  ds ≠ [] ->
  Forall (fun d => d < 10) ds ->
  match rest with c :: _ => Spec.decimal_digit c = false | [] => True end ->
  ¬ (ds = [0] ∧ exists r, rest = 120 :: r ∨ rest = 88 :: r) ->
  Js.parseInt (Js.Str (ws ++ sign ++ ((fun d => d + 48) <$> ds) ++ rest))
  = Js.Num (sign_value sign * Z.of_N (Js.digits_value 10 ds)).
Proof.
  intros Hws Hsign Hne Hds Hrest Hhex.
  unfold Js.parseInt. simpl Js.ToString. rewrite trim_start_white by done.
  set (body := ((fun d => d + 48) <$> ds) ++ rest).
  assert (Hbody : Js.split_radix body = (10, body)).
  { unfold body. destruct ds as [|d0 [|d1 ds']]; [done| |].
    - simpl. destruct rest as [|x r]; [done|].
      unfold Js.split_radix.
      destruct ((d0 + 48 =? 48) && ((x =? 120) || (x =? 88))) eqn:E; [|done].
      apply andb_true_iff in E as [E0 Ex]. apply N.eqb_eq in E0.
      exfalso. apply Hhex. split; [f_equal; lia|].
      apply orb_true_iff in Ex as [->%N.eqb_eq| ->%N.eqb_eq]; eauto.
    - simpl. unfold Js.split_radix.
      apply Forall_cons in Hds as [_ [Hd1 _]%Forall_cons].
      replace ((d1 + 48 =? 120) || (d1 + 48 =? 88)) with false;
        [by rewrite andb_false_r|].
      symmetry. apply orb_false_iff. split; apply N.eqb_neq; lia. }
  assert (Hstart : exists d ds', ds = d :: ds' ∧ d < 10).
  { destruct ds as [|d ds']; [done|]. apply Forall_cons in Hds as [Hd _]. eauto. }
  destruct Hstart as (d & ds' & Eds & Hd).
  assert (Htrim : Js.trim_start body = body).
  { unfold body. rewrite Eds. simpl. by rewrite white_space_digit. }
  assert (Hnosign : Js.split_sign body = (1%Z, body)).
  { unfold body. rewrite Eds. simpl.
    replace (d + 48 =? 45) with false by (symmetry; apply N.eqb_neq; lia).
    by replace (d + 48 =? 43) with false by (symmetry; apply N.eqb_neq; lia). }
  assert (Hdigits : Js.take_digits 10 body = ds)
    by (by apply take_digits_10_chars).
  destruct Hsign as [->|[->| ->]]; simpl app.
  - rewrite Htrim, Hnosign, Hbody, Hdigits. by rewrite Eds.
  - simpl. rewrite Hbody, Hdigits. by rewrite Eds.
  - simpl. rewrite Hbody, Hdigits. by rewrite Eds.
Qed.

Lemma or_default_nonzero z d : z ≠ 0%Z -> Js.or_default (Js.Num z) d = z.
Proof. by destruct z. Qed.

Lemma sign_value_nonzero sign : sign_value sign ≠ 0%Z.
Proof. unfold sign_value. by destruct (bool_decide _). Qed.

(** In [getVideos], a [page] or [limit] written as decimal digits, with
    leading white space, a sign and a trailing rest allowed, is used as
    the number the digits denote (up to 2^53, where numbers are exact),
    unless that number is 0: the rest is ignored and a negative number is
    passed on as it is. *)
Theorem getVideos_options_decimal
    (q : Query) (ws sign : Js.str) (ds : list N) (rest : Js.str) :
  Forall (fun c => Js.white_space c = true) ws ->
  sign = [] ∨ sign = [45] ∨ sign = [43] ->
  ds ≠ [] ->
  Forall (fun d => d < 10) ds ->
  match rest with c :: _ => Spec.decimal_digit c = false | [] => True end ->
  ¬ (ds = [0] ∧ exists r, rest = 120 :: r ∨ rest = 88 :: r) ->
  Js.digits_value 10 ds ≠ 0 ->
  Js.digits_value 10 ds <= 2 ^ 53 ->
  let v := Js.Str (ws ++ sign ++ ((fun d => d + 48) <$> ds) ++ rest) in
  let n := (sign_value sign * Z.of_N (Js.digits_value 10 ds))%Z in
  (q_page q = v -> opt_page (Handler.getVideos_options q) = n)
  ∧ (q_limit q = v -> opt_limit (Handler.getVideos_options q) = n).
Proof.
  intros Hws Hsign Hne Hds Hrest Hhex Hval _ v n.
  assert (Hn : n ≠ 0%Z).
  { unfold n. pose proof (sign_value_nonzero sign). lia. }
  pose proof (parseInt_decimal ws sign ds rest Hws Hsign Hne Hds Hrest Hhex) as Hp.
  split; intros Hq; simpl; rewrite Hq; unfold v; rewrite Hp;
    by apply or_default_nonzero.
Qed.

Lemma getVideos_options_decimal_witness :
  opt_page (Handler.getVideos_options
              (query_page_limit (Js.Str (Js.lit " 25abc")) (Js.Str (Js.lit "-5")))) = 25%Z
  ∧ opt_limit (Handler.getVideos_options
                 (query_page_limit (Js.Str (Js.lit " 25abc")) (Js.Str (Js.lit "-5")))) = (-5)%Z.
Proof.
  split.
  - refine (proj1 (getVideos_options_decimal
                     (query_page_limit (Js.Str (Js.lit " 25abc")) (Js.Str (Js.lit "-5")))
                     [32] [] [2; 5] (Js.lit "abc") _ _ _ _ _ _ _ _) eq_refl).
    + by repeat constructor.
    + by left.
    + done.
    + repeat constructor; lia.
    + reflexivity.
    + intros [? _]. done.
    + by vm_compute.
    + by vm_compute.
  - refine (proj2 (getVideos_options_decimal
                     (query_page_limit (Js.Str (Js.lit " 25abc")) (Js.Str (Js.lit "-5")))
                     [] [45] [5] [] _ _ _ _ _ _ _ _) eq_refl).
    + constructor.
    + right. by left.
    + done.
    + repeat constructor; lia.
    + exact I.
    + intros [_ [r [?|?]]]; done.
    + by vm_compute.
    + by vm_compute.
Defined.

(** In [getVideos], a [page] or [limit] given several times arrives as an
    array, and the first value is the one used: the array prints with
    commas, and [parseInt] stops at the first comma. *)
Theorem getVideos_options_repeated
    (q : Query) (ds : list N) (second : Js.value) (others : list Js.value) :
  ds ≠ [] ->
  Forall (fun d => d < 10) ds ->
  Js.digits_value 10 ds ≠ 0 ->
  Js.digits_value 10 ds <= 2 ^ 53 ->
  let v := Js.Arr (Js.Str ((fun d => d + 48) <$> ds) :: second :: others) in
  let n := Z.of_N (Js.digits_value 10 ds) in
  (q_page q = v -> opt_page (Handler.getVideos_options q) = n)
  ∧ (q_limit q = v -> opt_limit (Handler.getVideos_options q) = n).
Proof.
  intros Hne Hds Hval _ v n.
  assert (Hn : n ≠ 0%Z) by (unfold n; lia).
  assert (Hp : Js.parseInt v = Js.Num n).
  { assert (Hv : exists rest,
      Js.ToString v = [] ++ [] ++ ((fun d => d + 48) <$> ds) ++ 44 :: rest).
    { unfold v. simpl. eexists. reflexivity. }
    destruct Hv as [rest Hv].
    change (Js.parseInt v) with (Js.parseInt (Js.Str (Js.ToString v))).
    rewrite Hv.
    rewrite (parseInt_decimal [] [] ds (44 :: rest)); try done.
    - unfold sign_value, n. simpl. by destruct (Js.digits_value 10 ds).
    - by left.
    - intros [_ [r [?|?]]]; done. }
  split; intros Hq; simpl; rewrite Hq, Hp; by apply or_default_nonzero.
Qed.

Lemma getVideos_options_repeated_witness :
  opt_page (Handler.getVideos_options
              (query_page_limit
                 (Js.Arr [Js.Str (Js.lit "3"); Js.Str (Js.lit "9")]) Js.Undefined)) = 3%Z.
Proof.
  refine (proj1 (getVideos_options_repeated
                   (query_page_limit
                      (Js.Arr [Js.Str (Js.lit "3"); Js.Str (Js.lit "9")]) Js.Undefined)
                   [3] (Js.Str (Js.lit "9")) [] _ _ _ _) eq_refl).
  - done.
  - repeat constructor; lia.
  - by vm_compute.
  - by vm_compute.
Defined.

(** ** Publishing a video *)

Lemma publishVideo_run (env : Env) (req : Request) (s : Db)
    (title description vpath tpath : string) :
  present (body_title req) = Some title ->
  present (body_description req) = Some description ->
  present (files_videoFile req) = Some vpath ->
  present (files_thumbnail req) = Some tpath ->
  Handler.publishVideo env req s
  = match upload env vpath, upload env tpath with
    | Some uv, Some ut =>
        let v := published_video env req title description uv ut in
        ({| users := users s; subscriptions := subscriptions s;
            videos := <[next_id s := v]> (videos s); views := views s;
            assets := assets s ∪ {[Upload.public_id uv]} ∪ {[Upload.public_id ut]};
            next_id := next_id s + 1 |},
         inr {| status := 201;
                body := Success (new_ApiResponse 200 (DVideo (next_id s) v)
                                   "Video uploaded successfully") |})
    | Some uv, None =>
        (set_assets (fun a => a ∪ {[Upload.public_id uv]}) s, inl upload_failed)
    | None, Some ut =>
        (set_assets (fun a => a ∪ {[Upload.public_id ut]}) s, inl upload_failed)
    | None, None => (s, inl upload_failed)
    end.
Proof.
  intros Ht Hd Hv Hth. unfold Handler.publishVideo. rewrite Ht, Hd, Hv, Hth.
  unfold bind, uploadOnCloudinary.
  destruct (upload env vpath) as [uv|]; simpl;
    destruct (upload env tpath) as [ut|]; reflexivity.
Qed.

(** With a title, a description and both files, and both uploads done,
    [publishVideo] stores one new video under a fresh id and leaves every
    other video and every view as it was.  The new video is published,
    belongs to the requester and carries the two uploaded assets; the
    response has HTTP status 201 around an envelope whose [statusCode]
    is 200. *)
Theorem publishVideo_created (env : Env) (req : Request) (s : Db)
    (title description vpath tpath : string) (uv ut : Upload.t) :
  reachable s ->
  present (body_title req) = Some title ->
  present (body_description req) = Some description ->
  present (files_videoFile req) = Some vpath ->
  present (files_thumbnail req) = Some tpath ->
  upload env vpath = Some uv ->
  upload env tpath = Some ut ->
  let v := published_video env req title description uv ut in
  exists s',
    VideoController.publishVideo env req s
    = (s', [Write {| status := 201;
                     body := Success {| statusCode := 200;
                                        data := DVideo (next_id s) v;
                                        message := "Video uploaded successfully";
                                        success := true |} |}])
    ∧ videos s !! next_id s = None
    ∧ videos s' !! next_id s = Some v
    ∧ (forall id, id ≠ next_id s -> videos s' !! id = videos s !! id)
    ∧ views s' = views s
    ∧ assets s' = assets s ∪ {[Upload.public_id uv]} ∪ {[Upload.public_id ut]}
    ∧ next_id s' = next_id s + 1.
Proof.
  intros Hreach Ht Hd Hv Hth Huv Hut v.
  unfold VideoController.publishVideo. rewrite wrapped_async.
  rewrite (publishVideo_run env req s title description vpath tpath Ht Hd Hv Hth).
  rewrite Huv, Hut. cbv zeta. eexists. split; [reflexivity|]. simpl.
  split; [|split; [|split; [|done]]].
  - destruct (videos s !! next_id s) as [v0|] eqn:E; [|done].
    apply (inv_video_ids s (reachable_inv s Hreach)) in E. lia.
  - apply lookup_insert_eq.
  - intros id Hne. by rewrite lookup_insert_ne.
Qed.

Lemma publishVideo_created_witness :
  exists s',
    fst (VideoController.publishVideo (env_up 100) req_publish db0) = s'
    ∧ videos s' !! 2 = Some video_a
    ∧ next_id s' = 3.
Proof.
  destruct (publishVideo_created (env_up 100) req_publish db0
              "Intro" "First video" "clip.mp4" "clip.png"
              {| Upload.url := "clip.mp4"; Upload.public_id := "clip.mp4";
                 Upload.duration := 60 |}
              {| Upload.url := "clip.png"; Upload.public_id := "clip.png";
                 Upload.duration := 60 |}
              (reachable_initial db0 (conj eq_refl eq_refl))
              eq_refl eq_refl eq_refl eq_refl eq_refl eq_refl)
    as (s' & Hrun & _ & Hv & _ & _ & _ & Hn).
  exists s'. rewrite Hrun. auto.
Defined.

(** [publishVideo] answers 400 exactly when the title, the description,
    the video file or the thumbnail is missing or empty; it then has
    uploaded nothing and changed nothing. *)
Theorem publishVideo_bad_request (env : Env) (req : Request) (s : Db) :
  ((exists s' msg,
      VideoController.publishVideo env req s = (s', [Next (ApiError 400 msg)]))
   <-> (present (body_title req) = None ∨ present (body_description req) = None
        ∨ present (files_videoFile req) = None
        ∨ present (files_thumbnail req) = None))
  ∧ (forall s' msg,
       VideoController.publishVideo env req s = (s', [Next (ApiError 400 msg)]) ->
       s' = s).
Proof.
  unfold VideoController.publishVideo. rewrite wrapped_async.
  destruct (present (body_title req)) as [title|] eqn:Ht;
    [destruct (present (body_description req)) as [description|] eqn:Hd;
     [destruct (present (files_videoFile req)) as [vpath|] eqn:Hv;
      [destruct (present (files_thumbnail req)) as [tpath|] eqn:Hth|]|]|].
  - rewrite (publishVideo_run env req s title description vpath tpath Ht Hd Hv Hth).
    split; [split|].
    + intros (s' & msg & H). revert H.
      destruct (upload env vpath), (upload env tpath); discriminate.
    + intros [?|[?|[?|?]]]; discriminate.
    + intros s' msg.
      destruct (upload env vpath), (upload env tpath); discriminate.
  - unfold Handler.publishVideo. rewrite Ht, Hd, Hv, Hth.
    split; [split; [auto|eauto]|]. by intros s' msg [= <- _].
  - unfold Handler.publishVideo. rewrite Ht, Hd, Hv.
    split; [split; [auto|eauto]|]. by intros s' msg [= <- _].
  - unfold Handler.publishVideo. rewrite Ht, Hd.
    split; [split; [auto|eauto]|]. by intros s' msg [= <- _].
  - unfold Handler.publishVideo. rewrite Ht.
    split; [split; [auto|eauto]|]. by intros s' msg [= <- _].
Qed.

Lemma publishVideo_bad_request_witness :
  VideoController.publishVideo (env_up 100) blank_request db0
  = (db0, [Next (ApiError 400 "Title and Description both are required")]).
Proof.
  destruct (publishVideo_bad_request (env_up 100) blank_request db0) as [[_ H] Hs].
  destruct (H (or_introl eq_refl)) as (s' & msg & Hrun).
  rewrite Hrun. rewrite (Hs s' msg Hrun).
  revert Hrun. vm_compute. intros [= _ <-]. reflexivity.
Defined.

(** When an upload fails, [publishVideo] raises its 500 error and stores
    no video, but both uploads have been tried and the file that did get
    uploaded stays in the storage: nothing is cleaned up. *)
Theorem publishVideo_upload_failed (env : Env) (req : Request) (s : Db)
    (title description vpath tpath : string) :
  present (body_title req) = Some title ->
  present (body_description req) = Some description ->
  present (files_videoFile req) = Some vpath ->
  present (files_thumbnail req) = Some tpath ->
  upload env vpath = None ∨ upload env tpath = None ->
  exists s',
    VideoController.publishVideo env req s = (s', [Next upload_failed])
    ∧ videos s' = videos s
    ∧ views s' = views s
    ∧ next_id s' = next_id s
    ∧ (forall uv, upload env vpath = Some uv ->
         assets s' = assets s ∪ {[Upload.public_id uv]})
    ∧ (forall ut, upload env tpath = Some ut ->
         assets s' = assets s ∪ {[Upload.public_id ut]}).
Proof.
  intros Ht Hd Hv Hth Hfail.
  unfold VideoController.publishVideo. rewrite wrapped_async.
  rewrite (publishVideo_run env req s title description vpath tpath Ht Hd Hv Hth).
  destruct (upload env vpath) as [uv|], (upload env tpath) as [ut|];
    try (destruct Hfail; discriminate);
    eexists; (split; [reflexivity|]); simpl; repeat split;
    try done; by intros ? [= <-].
Qed.

Lemma publishVideo_upload_failed_witness :
  exists s',
    VideoController.publishVideo env_thumbnail_fails req_publish db0
    = (s', [Next upload_failed])
    ∧ videos s' = ∅
    ∧ assets s' = assets db0 ∪ {["clip.mp4"%string]}.
Proof.
  destruct (publishVideo_upload_failed env_thumbnail_fails req_publish db0
              "Intro" "First video" "clip.mp4" "clip.png"
              eq_refl eq_refl eq_refl eq_refl (or_intror eq_refl))
    as (s' & Hrun & Hv & _ & _ & Ha & _).
  exists s'. split; [exact Hrun|]. split; [exact Hv|].
  exact (Ha _ eq_refl).
Defined.

(** ** More on fetching a video *)

Lemma remove_first_filter_other (Q : ViewDoc.t -> Prop) `{!forall w, Decision (Q w)}
    (p : ViewDoc.t -> bool) (l : list ViewDoc.t) :
  (forall w, p w = true -> ¬ Q w) ->
  filter Q (snd (View.remove_first p l)) = filter Q l.
Proof.
  intros Hp. induction l as [|w r IH]; simpl; [done|].
  destruct (p w) eqn:Hw; simpl.
  - by rewrite filter_cons_False by (by apply Hp).
  - destruct (View.remove_first p r) as [found r']. simpl in *.
    rewrite !filter_cons. by rewrite IH.
Qed.

(** A fetch touches nothing but the view rows of its own (video, viewer)
    pair: users, subscriptions, videos and assets are as before, and so
    are the view rows of every other pair.  This holds in every state and
    whether the fetch succeeds or raises. *)
Theorem getVideo_frame (env : Env) (req : Request) (s : Db) (id : Id) :
  params_videoId req = Some id ->
  let s' := fst (VideoController.getVideo env req s) in
  users s' = users s ∧ subscriptions s' = subscriptions s
  ∧ videos s' = videos s ∧ assets s' = assets s
  ∧ forall video viewer,
      (video, viewer) ≠ (id, user req) ->
      view_rows video viewer s' = view_rows video viewer s.
Proof.
  intros Hid. unfold VideoController.getVideo. rewrite wrapped_async.
  destruct (Video.aggregate_detail id (user req) s) as [|d l] eqn:Hd.
  { rewrite (getVideo_miss env req s id Hid Hd). simpl. by repeat split. }
  revert Hd. unfold Video.aggregate_detail.
  destruct (videos s !! id) as [v|] eqn:Hv; [|done].
  destruct (VideoDoc.publisher v) as [p|] eqn:Hp; [|done].
  destruct (users s !! p) as [u|] eqn:Hu; [|done]. intros _.
  destruct (getVideo_stored env req s id p v u Hid Hv Hp Hu) as (d' & _ & ->).
  simpl. repeat split; try done.
  intros video viewer Hne. unfold view_rows. simpl.
  rewrite filter_app, filter_cons_False, filter_nil, app_nil_r
    by (simpl; intros [<- <-]; by apply Hne).
  apply remove_first_filter_other.
  intros w. unfold View.matches.
  rewrite !andb_true_iff, !bool_decide_eq_true.
  intros [[Hw _] Hr] [<- <-]. apply Hne. by rewrite Hw, Hr.
Qed.

Lemma getVideo_frame_witness :
  view_rows 2 (Some 7)
    (fst (VideoController.getVideo (env_up 200) (req_video (Some 1)) db1))
  = view_rows 2 (Some 7) db1.
Proof.
  refine (proj2 (proj2 (proj2 (proj2
            (getVideo_frame (env_up 200) (req_video (Some 1)) db1 2 eq_refl))))
            2 (Some 7) _).
  intros [= ?].
Defined.

Lemma remove_first_none (p : ViewDoc.t -> bool) (l : list ViewDoc.t) :
  (forall w, w ∈ l -> p w = false) -> View.remove_first p l = (None, l).
Proof.
  induction l as [|w r IH]; intros H; simpl; [done|].
  rewrite (H w) by apply list_elem_of_here.
  rewrite IH; [done|]. intros w' Hin. apply H. by apply list_elem_of_further.
Qed.

Lemma remove_first_filter_length (Q : ViewDoc.t -> Prop)
    `{!forall w, Decision (Q w)} (p : ViewDoc.t -> bool) (l : list ViewDoc.t)
    (w0 : ViewDoc.t) :
  (forall w, p w = true -> Q w) ->
  w0 ∈ l -> p w0 = true ->
  S (length (filter Q (snd (View.remove_first p l)))) = length (filter Q l).
Proof.
  intros HpQ. induction l as [|w r IH]; intros Hin Hp0; [by apply elem_of_nil in Hin|].
  simpl. destruct (p w) eqn:Hp; simpl.
  - by rewrite (filter_cons_True Q w r) by (by apply HpQ).
  - destruct (View.remove_first p r) as [found r'] eqn:Hr. simpl in *.
    apply elem_of_cons in Hin as [->|Hin]; [congruence|].
    specialize (IH Hin Hp0). rewrite !filter_cons.
    destruct (decide (Q w)); simpl; lia.
Qed.

(** The view count is a count of viewers, not of visits.  In every state
    the backend reaches, a successful fetch reports the number of view
    rows the video had before the fetch, and leaves one row more only
    when this viewer had none: fetching again does not raise the count. *)
Theorem getVideo_counts_viewers
    (env : Env) (req : Request) (s : Db)
    (id p : Id) (v : VideoDoc.t) (u : UserDoc.t) :
  reachable s ->
  params_videoId req = Some id ->
  videos s !! id = Some v ->
  VideoDoc.publisher v = Some p ->
  users s !! p = Some u ->
  exists s' d,
    VideoController.getVideo env req s = (s', [Write (fetched_response d)])
    ∧ Detail.viewsCount d = length (views_of id s)
    ∧ length (views_of id s')
      = (length (views_of id s)
         + if decide (view_rows id (user req) s = []) then 1 else 0)%nat.
Proof.
  intros Hreach Hid Hv Hp Hu.
  pose proof (reachable_inv s Hreach) as [I1 I2 I3 I4].
  unfold VideoController.getVideo. rewrite wrapped_async.
  destruct (getVideo_stored env req s id p v u Hid Hv Hp Hu) as (d & Hd & ->).
  eexists _, d. split; [reflexivity|]. split.
  { revert Hd. unfold Video.aggregate_detail. rewrite Hv, Hp, Hu.
    by intros [= <-]. }
  unfold views_of. simpl.
  rewrite filter_app, filter_cons_True, filter_nil, length_app by done. simpl.
  assert (Hsub : forall w, View.matches id p (user req) w = true ->
                           ViewDoc.video w = id).
  { intros w. unfold View.matches.
    rewrite !andb_true_iff, !bool_decide_eq_true. tauto. }
  destruct (decide (view_rows id (user req) s = [])) as [Hnone|Hsome].
  - rewrite remove_first_none; [simpl; lia|].
    intros w Hin. destruct (View.matches id p (user req) w) eqn:Hm; [|done].
    exfalso. eapply (filter_nil_not_elem_of _ _ w Hnone); [|exact Hin].
    revert Hm. unfold View.matches.
    rewrite !andb_true_iff, !bool_decide_eq_true. tauto.
  - destruct (view_rows id (user req) s) as [|w0 l0] eqn:Hrows; [done|].
    assert (Hin0 : w0 ∈ view_rows id (user req) s)
      by (rewrite Hrows; apply list_elem_of_here).
    unfold view_rows in Hin0. apply list_elem_of_filter in Hin0 as [[Hv0 Hr0] Hin0].
    assert (Hm0 : View.matches id p (user req) w0 = true).
    { unfold View.matches. rewrite !andb_true_iff, !bool_decide_eq_true.
      repeat split; try done.
      specialize (I3 w0 v Hin0). rewrite Hv0 in I3. specialize (I3 Hv). congruence. }
    pose proof (remove_first_filter_length
                  (fun w => ViewDoc.video w = id) _ (views s) w0 Hsub Hin0 Hm0).
    lia.
Qed.

Lemma getVideo_counts_viewers_witness :
  exists s1 s2 d1 d2,
    VideoController.getVideo (env_up 200) (req_video (Some 1)) db1
    = (s1, [Write (fetched_response d1)])
    ∧ VideoController.getVideo (env_up 300) (req_video (Some 1)) s1
      = (s2, [Write (fetched_response d2)])
    ∧ Detail.viewsCount d1 = 0%nat ∧ Detail.viewsCount d2 = 1%nat
    ∧ length (views_of 2 s2) = 1%nat.
Proof.
  destruct (getVideo_counts_viewers (env_up 200) (req_video (Some 1)) db1 2 1
              video_a alice db1_reachable eq_refl eq_refl eq_refl eq_refl)
    as (s1 & d1 & H1 & Hc1 & Hl1).
  assert (Hr1 : reachable s1).
  { apply (reachable_step db1 s1 db1_reachable).
    replace s1 with (fst (Handler.getVideo (env_up 200) (req_video (Some 1)) db1)).
    - apply (step_video Handler.getVideo). unfold handlers.
      rewrite !elem_of_cons. tauto.
    - revert H1. unfold VideoController.getVideo. rewrite wrapped_async.
      destruct (Handler.getVideo _ _ _) as [s0 [e|r]]; by intros [= <- _]. }
  assert (Hs1 : s1 = fst (VideoController.getVideo (env_up 200) (req_video (Some 1)) db1))
    by (by rewrite H1).
  destruct (getVideo_counts_viewers (env_up 300) (req_video (Some 1)) s1 2 1
              video_a alice Hr1 eq_refl
              ltac:(rewrite Hs1; reflexivity) eq_refl
              ltac:(rewrite Hs1; reflexivity))
    as (s2 & d2 & H2 & Hc2 & Hl2).
  exists s1, s2, d1, d2. split; [exact H1|]. split; [exact H2|].
  rewrite Hc1, Hl2, Hc2, Hl1. rewrite Hs1. by vm_compute.
Defined.

(** ** What holds in every state the backend reaches *)















Lemma NoDup_fmap_filter_le {A B} `{EqDecision B} (f : A -> B) (l : list A) :
  (forall x, (length (filter (fun a => f a = x) l) <= 1)%nat) -> NoDup (f <$> l).
Proof.
  induction l as [|a l IH]; intros H; [constructor|].
  rewrite fmap_cons. constructor.
  - intros (a' & Ha' & Hin)%list_elem_of_fmap.
    specialize (H (f a)). rewrite filter_cons_True in H by done. simpl in H.
    assert (a' ∈ filter (fun a0 => f a0 = f a) l)
      by (apply list_elem_of_filter; by split).
    destruct (filter (fun a0 => f a0 = f a) l); [by apply elem_of_nil in H0|].
    simpl in H. lia.
  - apply IH. intros x. specialize (H x). rewrite filter_cons in H.
    destruct (decide (f a = x)); simpl in H; lia.
Qed.

(** In every state the backend reaches, the view rows of one video belong
    to pairwise distinct viewers. *)
Theorem reachable_distinct_viewers (s : Db) (id : Id) :
  reachable s -> NoDup (ViewDoc.viewer <$> views_of id s).
Proof.
  intros Hreach. apply NoDup_fmap_filter_le. intros viewer.
  pose proof (inv_latest s (reachable_inv s Hreach) id viewer) as H.
  unfold view_rows in H. unfold views_of.
  rewrite list_filter_filter.
  erewrite list_filter_iff; [exact H|]. intros w. simpl. tauto.
Qed.

Lemma db2_reachable : reachable db2.
Proof.
  apply (reachable_step db1 db2 db1_reachable).
  apply (step_video Handler.getVideo). unfold handlers.
  rewrite !elem_of_cons. tauto.
Qed.



Lemma reachable_distinct_viewers_witness :
  NoDup (ViewDoc.viewer <$> views_of 2 db2).
Proof. exact (reachable_distinct_viewers db2 2 db2_reachable). Defined.

(** A video just published by a user with an account can be fetched at
    once: the fetch answers with the title and description given, zero
    views, and the requester of the upload as publisher, and records the
    first view. *)
Theorem publishVideo_then_getVideo
    (env env' : Env) (req req' : Request) (s : Db)
    (title description vpath tpath : string) (uv ut : Upload.t)
    (uid : Id) (u : UserDoc.t) :
  reachable s ->
  present (body_title req) = Some title ->
  present (body_description req) = Some description ->
  present (files_videoFile req) = Some vpath ->
  present (files_thumbnail req) = Some tpath ->
  upload env vpath = Some uv ->
  upload env tpath = Some ut ->
  user req = Some uid ->
  users s !! uid = Some u ->
  params_videoId req' = Some (next_id s) ->
  exists s1 s2 r d,
    VideoController.publishVideo env req s = (s1, [Write r])
    ∧ VideoController.getVideo env' req' s1 = (s2, [Write (fetched_response d)])
    ∧ Detail._id d = next_id s
    ∧ Detail.title d = title
    ∧ Detail.description d = description
    ∧ Detail.videoFile d = image_of uv
    ∧ Detail.thumbnail d = image_of ut
    ∧ Detail.viewsCount d = 0%nat
    ∧ Detail.publisherId d = uid
    ∧ Detail.publisherUsername d = UserDoc.username u
    ∧ length (views_of (next_id s) s2) = 1%nat.
Proof.
  intros Hreach Ht Hd Hv Hth Huv Hut Huser Hu Hid'.
  pose proof (reachable_inv s Hreach) as [I1 I2 I3 I4].
  unfold VideoController.publishVideo, VideoController.getVideo.
  rewrite wrapped_async.
  rewrite (publishVideo_run env req s title description vpath tpath Ht Hd Hv Hth).
  rewrite Huv, Hut. cbv zeta.
  set (v := published_video env req title description uv ut).
  set (s1 := {| users := users s; subscriptions := subscriptions s;
                videos := <[next_id s := v]> (videos s); views := views s;
                assets := _; next_id := next_id s + 1 |}).
  assert (Hv1 : videos s1 !! next_id s = Some v) by apply lookup_insert_eq.
  assert (Hp1 : VideoDoc.publisher v = Some uid) by exact Huser.
  assert (Hu1 : users s1 !! uid = Some u) by exact Hu.
  assert (Hnone : filter (fun w => ViewDoc.video w = next_id s) (views s) = []).
  { destruct (filter _ (views s)) as [|w l] eqn:Hf; [done|].
    assert (Hw : w ∈ filter (fun w => ViewDoc.video w = next_id s) (views s))
      by (rewrite Hf; apply list_elem_of_here).
    apply list_elem_of_filter in Hw as [Hw Hin]. apply I2 in Hin. lia. }
  destruct (getVideo_stored env' req' s1 (next_id s) uid v u Hid' Hv1 Hp1 Hu1)
    as (d & Hagg & Hrun).
  eexists s1, _, _, d. split; [reflexivity|].
  rewrite wrapped_async, Hrun. split; [reflexivity|].
  revert Hagg. unfold Video.aggregate_detail. rewrite Hv1, Hp1, Hu1.
  intros [= <-]. simpl. rewrite Hnone.
  repeat split; try done.
  unfold views_of. simpl.
  rewrite filter_app, filter_cons_True, filter_nil, length_app by done. simpl.
  pose proof (sublist_length _ _
    (filter_sublist_mono (fun w => ViewDoc.video w = next_id s) _ _
       (remove_first_sublist (View.matches (next_id s) uid (user req')) (views s)))).
  rewrite Hnone in H. simpl in H. lia.
Qed.

Lemma publishVideo_then_getVideo_witness :
  exists s2 d,
    VideoController.getVideo (env_up 200) (req_video (Some 1)) db1
    = (s2, [Write (fetched_response d)])
    ∧ Detail.title d = "Intro"%string
    ∧ Detail.viewsCount d = 0%nat
    ∧ Detail.publisherId d = 1.
Proof.
  destruct (publishVideo_then_getVideo (env_up 100) (env_up 200) req_publish
              (req_video (Some 1)) db0
              "Intro" "First video" "clip.mp4" "clip.png"
              {| Upload.url := "clip.mp4"; Upload.public_id := "clip.mp4";
                 Upload.duration := 60 |}
              {| Upload.url := "clip.png"; Upload.public_id := "clip.png";
                 Upload.duration := 60 |}
              1 alice
              (reachable_initial db0 (conj eq_refl eq_refl))
              eq_refl eq_refl eq_refl eq_refl eq_refl eq_refl eq_refl eq_refl
              eq_refl)
    as (s1 & s2 & r & d & H1 & H2 & _ & Ht & _ & _ & _ & Hc & Hp & _).
  assert (Hs1 : s1 = db1).
  { unfold db1. revert H1. unfold VideoController.publishVideo.
    rewrite wrapped_async.
    destruct (Handler.publishVideo _ _ _) as [s0 [e|r0]]; by intros [= <- _]. }
  subst s1. exists s2, d. auto.
Defined.

(** In the answer of a fetch, [isSubscribed] is true exactly when a
    subscription of the requester to the video's publisher is stored; a
    request without user is never subscribed. *)
Theorem getVideo_isSubscribed
    (env : Env) (req : Request) (s : Db)
    (id p : Id) (v : VideoDoc.t) (u : UserDoc.t) :
  params_videoId req = Some id ->
  videos s !! id = Some v ->
  VideoDoc.publisher v = Some p ->
  users s !! p = Some u ->
  exists s' d,
    VideoController.getVideo env req s = (s', [Write (fetched_response d)])
    ∧ Detail.publisherId d = p
    ∧ (Detail.isSubscribed d = true
       <-> exists e, e ∈ subscriptions s
                     ∧ SubscriptionDoc.channel e = p
                     ∧ Some (SubscriptionDoc.subscriber e) = user req)
    ∧ (user req = None -> Detail.isSubscribed d = false).
Proof.
  intros Hid Hv Hp Hu.
  unfold VideoController.getVideo. rewrite wrapped_async.
  destruct (getVideo_stored env req s id p v u Hid Hv Hp Hu) as (d & Hagg & ->).
  eexists _, d. split; [reflexivity|].
  revert Hagg. unfold Video.aggregate_detail. rewrite Hv, Hp, Hu.
  intros [= <-]. simpl. split; [done|].
  assert (Hiff : bool_decide
      (0 < length (filter (fun e => SubscriptionDoc.channel e = p
                             ∧ Some (SubscriptionDoc.subscriber e) = user req)
                     (subscriptions s)))%nat = true
    <-> exists e, e ∈ subscriptions s ∧ SubscriptionDoc.channel e = p
                  ∧ Some (SubscriptionDoc.subscriber e) = user req).
  { rewrite bool_decide_eq_true. split.
    - intros Hlen.
      destruct (filter _ (subscriptions s)) as [|e l] eqn:Hf; [simpl in Hlen; lia|].
      assert (He : e ∈ filter (fun e => SubscriptionDoc.channel e = p
                                 ∧ Some (SubscriptionDoc.subscriber e) = user req)
                         (subscriptions s))
        by (rewrite Hf; apply list_elem_of_here).
      apply list_elem_of_filter in He as [[? ?] ?]. eauto.
    - intros (e & Hin & Hc & Hsub).
      assert (He : e ∈ filter (fun e => SubscriptionDoc.channel e = p
                                 ∧ Some (SubscriptionDoc.subscriber e) = user req)
                         (subscriptions s))
        by (apply list_elem_of_filter; by repeat split).
      destruct (filter _ (subscriptions s)); [by apply elem_of_nil in He|].
      simpl. lia. }
  split; [exact Hiff|].
  intros Hanon. apply not_true_is_false. rewrite Hiff.
  intros (e & _ & _ & He). rewrite Hanon in He. discriminate.
Qed.

Lemma getVideo_isSubscribed_witness :
  exists s' d,
    VideoController.getVideo (env_up 200) (req_video None) db1
    = (s', [Write (fetched_response d)])
    ∧ Detail.isSubscribed d = false.
Proof.
  destruct (getVideo_isSubscribed (env_up 200) (req_video None) db1 2 1 video_a alice
              eq_refl eq_refl eq_refl eq_refl)
    as (s' & d & Hrun & _ & _ & Hanon).
  exists s', d. split; [exact Hrun|]. by apply Hanon.
Defined.

(** ** Videos that are not there *)

Lemma unknown_video_raises (env : Env) (req : Request) (s : Db) (id : Id)
    (h : Env -> Request -> M Response) :
  h ∈ video_handlers ->
  params_videoId req = Some id ->
  videos s !! id = None ->
  exists code msg,
    h env req s = (s, inl (ApiError code msg)) ∧ (code = 400%Z ∨ code = 500%Z).
Proof.
  unfold video_handlers. rewrite !elem_of_cons, elem_of_nil.
  intros [->|[->|[->|[->|[->|[->|[->|[]]]]]]]] Hid Hv.
  - rewrite (getVideo_miss env req s id Hid); [eauto|].
    unfold Video.aggregate_detail. by rewrite Hv.
  - unfold Handler.changeVideoFile. rewrite Hid.
    destruct (present (file_path req)); [|eauto].
    unfold bind, Video.findById, gets. rewrite Hv. eauto.
  - unfold Handler.changeThumbnail. rewrite Hid.
    destruct (present (file_path req)); [|eauto].
    unfold bind, Video.findById, gets. rewrite Hv. eauto.
  - unfold Handler.changeTitle. rewrite Hid.
    destruct (present (body_title req)); [|eauto].
    unfold bind, Video.findByIdAndUpdate. rewrite Hv. eauto.
  - unfold Handler.changeDescription. rewrite Hid.
    destruct (present (body_description req)); [|eauto].
    unfold bind, Video.findByIdAndUpdate. rewrite Hv. eauto.
  - unfold Handler.deleteVideo. rewrite Hid.
    unfold bind, Video.findById, gets. rewrite Hv. eauto.
  - unfold Handler.togglePublishStatus. rewrite Hid.
    unfold bind, Video.findById, gets. rewrite Hv. eauto.
Qed.

(** A request on an id under which no video is stored is refused by each
    of the seven handlers that take an id: the error goes to [next] with
    code 400 or 500, no response is written, and database and storage stay
    as they are; in particular nothing is deleted from or uploaded to the
    storage for it. *)
Theorem unknown_video_rejected (env : Env) (req : Request) (s : Db) (id : Id)
    (h : Env -> Request -> M Response) :
  h ∈ video_handlers ->
  params_videoId req = Some id ->
  videos s !! id = None ->
  exists code msg,
    asyncHandler (async (h env)) req s = (s, [Next (ApiError code msg)])
    ∧ (code = 400%Z ∨ code = 500%Z).
Proof.
  intros Hh Hid Hv.
  destruct (unknown_video_raises env req s id h Hh Hid Hv) as (code & msg & Hrun & Hc).
  exists code, msg. rewrite wrapped_async, Hrun. by split.
Qed.

Lemma unknown_video_rejected_witness :
  exists code msg,
    VideoController.changeVideoFile (env_up 100) (req_video (Some 1)) db0
    = (db0, [Next (ApiError code msg)])
    ∧ (code = 400%Z ∨ code = 500%Z).
Proof.
  refine (unknown_video_rejected (env_up 100) (req_video (Some 1)) db0 2
            Handler.changeVideoFile _ eq_refl eq_refl).
  unfold video_handlers. rewrite !elem_of_cons. tauto.
Defined.

(** Deleting is final: after a video has been deleted, a fetch of it
    raises the 500 error of a failed fetch and records no view, and a
    second delete raises too instead of answering with success. *)
Theorem deleteVideo_then_gone (env env' : Env) (req : Request) (s : Db)
    (id : Id) (v : VideoDoc.t) :
  params_videoId req = Some id ->
  videos s !! id = Some v ->
  let s1 := fst (VideoController.deleteVideo env req s) in
  VideoController.getVideo env' req s1
  = (s1, [Next (ApiError 500 "Something went wrong while fetching the video")])
  ∧ VideoController.deleteVideo env' req s1
    = (s1, [Next (ApiError 500 "Something went wrong while fetching the video")]).
Proof.
  intros Hid Hv s1.
  assert (Hgone : videos s1 !! id = None).
  { unfold s1, VideoController.deleteVideo. rewrite wrapped_async.
    rewrite (deleteVideo_stored env req s id v Hid Hv). simpl.
    apply lookup_delete_eq. }
  unfold VideoController.getVideo, VideoController.deleteVideo at 1.
  rewrite !wrapped_async. split.
  - rewrite (getVideo_miss env' req s1 id Hid); [done|].
    unfold Video.aggregate_detail. by rewrite Hgone.
  - unfold Handler.deleteVideo. rewrite Hid.
    unfold bind, Video.findById, gets. by rewrite Hgone.
Qed.

Lemma deleteVideo_then_gone_witness :
  VideoController.getVideo (env_up 500) (req_video (Some 1))
    (fst (VideoController.deleteVideo (env_up 400) (req_video (Some 1)) db2))
  = (fst (VideoController.deleteVideo (env_up 400) (req_video (Some 1)) db2),
     [Next (ApiError 500 "Something went wrong while fetching the video")]).
Proof.
  exact (proj1 (deleteVideo_then_gone (env_up 400) (env_up 500)
                  (req_video (Some 1)) db2 2 video_a eq_refl eq_refl)).
Defined.

Lemma filter_all {A} (P : A -> Prop) `{!forall x, Decision (P x)} (l : list A) :
  (forall x, x ∈ l -> P x) -> filter P l = l.
Proof.
  induction l as [|a l IH]; intros Hall; [done|].
  rewrite filter_cons_True by apply Hall, list_elem_of_here.
  f_equal. apply IH. intros x Hin. by apply Hall, list_elem_of_further.
Qed.

(** Publishing a video and deleting it again brings back the collections
    as they were: the videos, the views, and, when the two uploads were
    new to the storage and the storage deletes them, the assets.  Only
    the id that was used is not given out again. *)
Theorem publishVideo_then_deleteVideo
    (env env' : Env) (req req' : Request) (s : Db)
    (title description vpath tpath : string) (uv ut : Upload.t) :
  reachable s ->
  present (body_title req) = Some title ->
  present (body_description req) = Some description ->
  present (files_videoFile req) = Some vpath ->
  present (files_thumbnail req) = Some tpath ->
  upload env vpath = Some uv ->
  upload env tpath = Some ut ->
  Upload.public_id uv ∉ assets s ->
  Upload.public_id ut ∉ assets s ->
  destroy_ok env' (Upload.public_id uv) = true ->
  destroy_ok env' (Upload.public_id ut) = true ->
  params_videoId req' = Some (next_id s) ->
  exists s1 s2 r,
    VideoController.publishVideo env req s = (s1, [Write r])
    ∧ VideoController.deleteVideo env' req' s1 = (s2, [Write deleted_response])
    ∧ s2 = bump_id s.
Proof.
  intros Hreach Ht Hd Hv Hth Huv Hut Hav Hat Hdv Hdt Hid'.
  pose proof (reachable_inv s Hreach) as [I1 I2 I3 I4].
  unfold VideoController.publishVideo, VideoController.deleteVideo.
  rewrite wrapped_async.
  rewrite (publishVideo_run env req s title description vpath tpath Ht Hd Hv Hth).
  rewrite Huv, Hut. cbv zeta.
  set (v := published_video env req title description uv ut).
  set (s1 := {| users := users s; subscriptions := subscriptions s;
                videos := <[next_id s := v]> (videos s); views := views s;
                assets := _; next_id := next_id s + 1 |}).
  assert (Hv1 : videos s1 !! next_id s = Some v) by apply lookup_insert_eq.
  eexists s1, _, _. split; [reflexivity|].
  rewrite wrapped_async.
  rewrite (deleteVideo_stored env' req' s1 (next_id s) v Hid' Hv1).
  cbv zeta. split; [reflexivity|]. simpl. unfold bump_id. f_equal.
  - apply delete_insert_id.
    destruct (videos s !! next_id s) as [v0|] eqn:E; [|done].
    apply I1 in E. lia.
  - apply filter_all. intros w Hin Hw. apply I2 in Hin. lia.
  - rewrite Hdv, Hdt. apply set_eq. intros x.
    rewrite !elem_of_difference, !elem_of_union, !elem_of_singleton.
    split; [tauto|]. intros Hx. split; [split; [tauto|]|]; by intros ->.
Qed.

Lemma publishVideo_then_deleteVideo_witness :
  exists s1 s2 r,
    VideoController.publishVideo (env_up 600) req_publish_second db2 = (s1, [Write r])
    ∧ VideoController.deleteVideo (env_up 700) req_video_3 s1
      = (s2, [Write deleted_response])
    ∧ videos s2 = videos db2 ∧ views s2 = views db2 ∧ assets s2 = assets db2.
Proof.
  destruct (publishVideo_then_deleteVideo (env_up 600) (env_up 700)
              req_publish_second req_video_3 db2
              "Second" "Another" "two.mp4" "two.png"
              {| Upload.url := "two.mp4"; Upload.public_id := "two.mp4";
                 Upload.duration := 60 |}
              {| Upload.url := "two.png"; Upload.public_id := "two.png";
                 Upload.duration := 60 |}
              db2_reachable eq_refl eq_refl eq_refl eq_refl eq_refl eq_refl
              ltac:(by vm_compute) ltac:(by vm_compute) eq_refl eq_refl eq_refl)
    as (s1 & s2 & r & H1 & H2 & Hs2).
  exists s1, s2, r. split; [exact H1|]. split; [exact H2|]. by rewrite Hs2.
Defined.

(** ** How every request ends *)

Ltac run_handler :=
  unfold bind, gets, ret, throw, send, Video.findById, Video.findByIdAndUpdate,
    Video.findByIdAndDelete, Video.save, Video.create, View.findOneAndDelete,
    View.create, View.deleteMany, uploadOnCloudinary, deleteFromCloudinary;
  repeat (simpl in *; case_match; simplify_eq).

Lemma handlers_end (h : Env -> Request -> M Response) (env : Env)
    (req : Request) (s : Db) :
  h ∈ handlers ->
  (exists s' r a,
     h env req s = (s', inr r)
     ∧ (status r = 200%Z ∨ status r = 201%Z)
     ∧ body r = Success a ∧ success a = true)
  ∨ (exists msg, h env req s = (s, inl (ApiError 400 msg)))
  ∨ (exists s' msg, h env req s = (s', inl (ApiError 500 msg))).
Proof.
  unfold handlers. rewrite !elem_of_cons, elem_of_nil.
  intros [->|[->|[->|[->|[->|[->|[->|[->|[->|[]]]]]]]]]].
  - unfold Handler.getVideos. cbv zeta. run_handler; eauto 10.
  - unfold Handler.publishVideo. run_handler; eauto 10.
  - unfold Handler.getVideo. run_handler; eauto 10.
  - unfold Handler.changeVideoFile. run_handler; eauto 10.
  - unfold Handler.changeThumbnail. run_handler; eauto 10.
  - unfold Handler.changeTitle. run_handler; eauto 10.
  - unfold Handler.changeDescription. run_handler; eauto 10.
  - unfold Handler.deleteVideo. run_handler; eauto 10.
  - unfold Handler.togglePublishStatus. run_handler; eauto 10.
Qed.

(** What one of the nine wrapped handlers can answer.  A run ends in one
    event, and never in an uncaught error.  A response it writes has status
    200 or 201 and carries a success envelope.  An [ApiError] it hands to
    [next] has code 400 or 500, and with code 400 the database and the
    storage are as they were.  Errors of the libraries the handler calls
    are handed to [next] as they come and are left open here. *)
Theorem handlers_answers (h : Env -> Request -> M Response) (env : Env)
    (req : Request) (s s' : Db) (events : list Event) :
  h ∈ handlers ->
  asyncHandler (async (h env)) req s = (s', events) ->
  (exists e, events = [e])
  ∧ (forall r, Write r ∈ events ->
       (status r = 200%Z ∨ status r = 201%Z)
       ∧ exists a, body r = Success a ∧ success a = true)
  ∧ (forall code msg, Next (ApiError code msg) ∈ events ->
       (code = 400%Z ∧ s' = s) ∨ code = 500%Z)
  ∧ (forall e, Uncaught e ∉ events).
Proof.
  intros Hh. rewrite wrapped_async.
  destruct (handlers_end h env req s Hh)
    as [(s1 & r & a & -> & Hst & Hb & Ha)|[(msg & ->)|(s1 & msg & ->)]];
    intros [= <- <-]; (split; [by eexists|]);
    (split; [|split]); intros *; rewrite list_elem_of_singleton;
    try discriminate.
  - intros [= <-]. eauto.
  - intros [= <- <-]. by left.
  - intros [= <- <-]. by right.
Qed.

Lemma handlers_answers_witness :
  exists s' r,
    VideoController.togglePublishStatus (env_up 200) (req_video (Some 1)) db1
    = (s', [Write r])
    ∧ (status r = 200%Z ∨ status r = 201%Z)
    ∧ exists a, body r = Success a ∧ success a = true.
Proof.
  destruct (VideoController.togglePublishStatus (env_up 200) (req_video (Some 1)) db1)
    as [s' events] eqn:E.
  assert (Hh : Handler.togglePublishStatus ∈ handlers)
    by (unfold handlers; rewrite !elem_of_cons; tauto).
  destruct (handlers_answers Handler.togglePublishStatus (env_up 200)
              (req_video (Some 1)) db1 s' events Hh E) as (_ & Hw & _ & _).
  assert (Hev : exists r, events = [Write r])
    by (vm_compute in E; injection E as _ <-; by eexists).
  destruct Hev as [r ->]. exists s', r. split; [reflexivity|].
  apply Hw, list_elem_of_here.
Defined.

(** ** Editing a video *)

(** The five editing handlers never create or delete a video, never touch
    another video, a view, a user or a subscription, and never change the
    publisher, the creation time or the duration of the video they edit:
    replacing the video file keeps the duration of the first upload. *)
Theorem edit_handlers_frame (h : Env -> Request -> M Response) (env : Env)
    (req : Request) (s : Db) (id : Id) :
  h ∈ edit_handlers ->
  params_videoId req = Some id ->
  retouched id s (fst (h env req s)).
Proof.
  unfold edit_handlers. rewrite !elem_of_cons, elem_of_nil.
  intros [->|[->|[->|[->|[->|[]]]]]] Hid; unfold retouched.
  - unfold Handler.changeVideoFile. rewrite Hid. run_handler;
      repeat split; intros; rewrite ?lookup_insert_eq, ?lookup_insert_ne in *;
      by simplify_eq.
  - unfold Handler.changeThumbnail. rewrite Hid. run_handler;
      repeat split; intros; rewrite ?lookup_insert_eq, ?lookup_insert_ne in *;
      by simplify_eq.
  - unfold Handler.changeTitle. rewrite Hid. run_handler;
      repeat split; intros; rewrite ?lookup_insert_eq, ?lookup_insert_ne in *;
      by simplify_eq.
  - unfold Handler.changeDescription. rewrite Hid. run_handler;
      repeat split; intros; rewrite ?lookup_insert_eq, ?lookup_insert_ne in *;
      by simplify_eq.
  - unfold Handler.togglePublishStatus. rewrite Hid. run_handler;
      repeat split; intros; rewrite ?lookup_insert_eq, ?lookup_insert_ne in *;
      by simplify_eq.
Qed.

Lemma edit_handlers_frame_witness :
  retouched 2 db1 (fst (Handler.changeVideoFile (env_up 200) (req_video (Some 1)) db1)).
Proof.
  refine (edit_handlers_frame Handler.changeVideoFile (env_up 200)
            (req_video (Some 1)) db1 2 _ eq_refl).
  unfold edit_handlers. rewrite !elem_of_cons. tauto.
Defined.

(** When the old file is deleted and the new one uploaded,
    [changeVideoFile] answers 200 with the updated video: its video file
    is the new upload, its thumbnail, title, description and published
    flag are as before, and so is its duration, whatever the duration of
    the new upload.  In the storage the old asset has made way for the
    new one. *)
Theorem changeVideoFile_replaces (env : Env) (req : Request) (s : Db)
    (id : Id) (v : VideoDoc.t) (path : string) (u : Upload.t) :
  params_videoId req = Some id ->
  present (file_path req) = Some path ->
  videos s !! id = Some v ->
  destroy_ok env (Image.publicId (VideoDoc.videoFile v)) = true ->
  upload env path = Some u ->
  exists s' v',
    VideoController.changeVideoFile env req s
    = (s', [Write {| status := 200;
                     body := Success (new_ApiResponse 200 (DUpdatedVideo id v')
                                        "Video file updated successfully") |}])
    ∧ videos s' !! id = Some v'
    ∧ VideoDoc.videoFile v' = image_of u
    ∧ VideoDoc.thumbnail v' = VideoDoc.thumbnail v
    ∧ VideoDoc.title v' = VideoDoc.title v
    ∧ VideoDoc.description v' = VideoDoc.description v
    ∧ VideoDoc.isPublished v' = VideoDoc.isPublished v
    ∧ VideoDoc.duration v' = VideoDoc.duration v
    ∧ VideoDoc.updatedAt v' = now env
    ∧ assets s'
      = assets s ∖ {[Image.publicId (VideoDoc.videoFile v)]} ∪ {[Upload.public_id u]}.
Proof.
  intros Hid Hpath Hv Hd Hu. unfold VideoController.changeVideoFile.
  rewrite wrapped_async. unfold Handler.changeVideoFile. rewrite Hid, Hpath.
  unfold bind, Video.findById, gets, deleteFromCloudinary, uploadOnCloudinary,
    Video.findByIdAndUpdate, send, ret.
  rewrite Hv. simpl. rewrite Hd. simpl. rewrite Hu. simpl. rewrite Hv.
  eexists _, _. split; [reflexivity|]. simpl.
  split; [apply lookup_insert_eq|]. by repeat split.
Qed.

Lemma changeVideoFile_replaces_witness :
  exists s' v',
    fst (VideoController.changeVideoFile (env_up 200) (req_video (Some 1)) db1) = s'
    ∧ videos s' !! 2 = Some v'
    ∧ Image.publicId (VideoDoc.videoFile v') = "new.mp4"%string
    ∧ VideoDoc.thumbnail v' = VideoDoc.thumbnail video_a
    ∧ assets s' = assets db1 ∖ {["clip.mp4"%string]} ∪ {["new.mp4"%string]}.
Proof.
  destruct (changeVideoFile_replaces (env_up 200) (req_video (Some 1)) db1 2 video_a
              "new.mp4"
              {| Upload.url := "new.mp4"; Upload.public_id := "new.mp4";
                 Upload.duration := 60 |}
              eq_refl eq_refl eq_refl eq_refl eq_refl)
    as (s' & v' & Hrun & Hv' & Hf & Ht & _ & _ & _ & _ & _ & Ha).
  exists s', v'. rewrite Hrun. split; [reflexivity|]. split; [exact Hv'|].
  split; [by rewrite Hf|]. split; [exact Ht|exact Ha].
Defined.

(** The same for [changeThumbnail]: the thumbnail is the new upload, the
    video file and the other fields stay, and the old thumbnail asset
    makes way for the new one. *)
Theorem changeThumbnail_replaces (env : Env) (req : Request) (s : Db)
    (id : Id) (v : VideoDoc.t) (path : string) (u : Upload.t) :
  params_videoId req = Some id ->
  present (file_path req) = Some path ->
  videos s !! id = Some v ->
  destroy_ok env (Image.publicId (VideoDoc.thumbnail v)) = true ->
  upload env path = Some u ->
  exists s' v',
    VideoController.changeThumbnail env req s
    = (s', [Write {| status := 200;
                     body := Success (new_ApiResponse 200 (DUpdatedVideo id v')
                                        "Thumbnail updated successfully") |}])
    ∧ videos s' !! id = Some v'
    ∧ VideoDoc.thumbnail v' = image_of u
    ∧ VideoDoc.videoFile v' = VideoDoc.videoFile v
    ∧ VideoDoc.title v' = VideoDoc.title v
    ∧ VideoDoc.description v' = VideoDoc.description v
    ∧ VideoDoc.isPublished v' = VideoDoc.isPublished v
    ∧ VideoDoc.updatedAt v' = now env
    ∧ assets s'
      = assets s ∖ {[Image.publicId (VideoDoc.thumbnail v)]} ∪ {[Upload.public_id u]}.
Proof.
  intros Hid Hpath Hv Hd Hu. unfold VideoController.changeThumbnail.
  rewrite wrapped_async. unfold Handler.changeThumbnail. rewrite Hid, Hpath.
  unfold bind, Video.findById, gets, deleteFromCloudinary, uploadOnCloudinary,
    Video.findByIdAndUpdate, send, ret.
  rewrite Hv. simpl. rewrite Hd. simpl. rewrite Hu. simpl. rewrite Hv.
  eexists _, _. split; [reflexivity|]. simpl.
  split; [apply lookup_insert_eq|]. by repeat split.
Qed.

Lemma changeThumbnail_replaces_witness :
  exists s' v',
    fst (VideoController.changeThumbnail (env_up 200) (req_video (Some 1)) db1) = s'
    ∧ videos s' !! 2 = Some v'
    ∧ Image.publicId (VideoDoc.thumbnail v') = "new.mp4"%string
    ∧ VideoDoc.videoFile v' = VideoDoc.videoFile video_a.
Proof.
  destruct (changeThumbnail_replaces (env_up 200) (req_video (Some 1)) db1 2 video_a
              "new.mp4"
              {| Upload.url := "new.mp4"; Upload.public_id := "new.mp4";
                 Upload.duration := 60 |}
              eq_refl eq_refl eq_refl eq_refl eq_refl)
    as (s' & v' & Hrun & Hv' & Ht & Hf & _).
  exists s', v'. rewrite Hrun. split; [reflexivity|]. split; [exact Hv'|].
  split; [by rewrite Ht|exact Hf].
Defined.

(** A change of title and a change of description do not undo each
    other: after both, in either order, the video has the new title and
    the new description, every other field as before, and the time of
    the later change as [updatedAt]. *)
Theorem changeTitle_changeDescription
    (env1 env2 : Env) (req : Request) (s : Db) (id : Id) (v : VideoDoc.t)
    (title description : string) :
  params_videoId req = Some id ->
  present (body_title req) = Some title ->
  present (body_description req) = Some description ->
  videos s !! id = Some v ->
  let final := touch env2 (set_description description (set_title title v)) in
  let td := fst (VideoController.changeDescription env2 req
                   (fst (VideoController.changeTitle env1 req s))) in
  let dt := fst (VideoController.changeTitle env2 req
                   (fst (VideoController.changeDescription env1 req s))) in
  td = set_videos (insert id final) s
  ∧ dt = td
  ∧ VideoDoc.title final = title
  ∧ VideoDoc.description final = description
  ∧ VideoDoc.videoFile final = VideoDoc.videoFile v
  ∧ VideoDoc.thumbnail final = VideoDoc.thumbnail v
  ∧ VideoDoc.isPublished final = VideoDoc.isPublished v
  ∧ VideoDoc.updatedAt final = now env2.
Proof.
  intros Hid Ht Hd Hv final td dt.
  assert (Htd : td = set_videos (insert id final) s).
  { unfold td, VideoController.changeDescription, VideoController.changeTitle.
    rewrite !wrapped_async.
    unfold Handler.changeTitle, Handler.changeDescription.
    rewrite Hid, Ht, Hd. unfold bind, Video.findByIdAndUpdate, send, ret.
    rewrite Hv. simpl. rewrite lookup_insert_eq. simpl.
    unfold set_videos. simpl. by rewrite insert_insert_eq. }
  split; [exact Htd|]. split; [|by repeat split].
  rewrite Htd.
  unfold dt, VideoController.changeDescription, VideoController.changeTitle.
  rewrite !wrapped_async.
  unfold Handler.changeTitle, Handler.changeDescription.
  rewrite Hid, Ht, Hd. unfold bind, Video.findByIdAndUpdate, send, ret.
  rewrite Hv. simpl. rewrite lookup_insert_eq. simpl.
  unfold set_videos. simpl. by rewrite insert_insert_eq.
Qed.

Lemma changeTitle_changeDescription_witness :
  VideoDoc.title <$>
    videos (fst (VideoController.changeDescription (env_up 300) (req_video (Some 1))
              (fst (VideoController.changeTitle (env_up 200) (req_video (Some 1)) db1))))
    !! 2 = Some "Renamed"%string.
Proof.
  destruct (changeTitle_changeDescription (env_up 200) (env_up 300)
              (req_video (Some 1)) db1 2 video_a "Renamed" "Edited"
              eq_refl eq_refl eq_refl eq_refl) as (Htd & _).
  rewrite Htd. reflexivity.
Defined.

(** ** The wrapper in every case *)

(** Whatever the handler does, the wrapper passes on the handler's state
    and events and adds at most one event of its own, never a response.
    It adds a call of [next] exactly when the promise is rejected: an
    exception thrown by the call itself escapes the wrapper, and a
    fulfilled or pending promise or a plain value adds nothing. *)
Theorem asyncHandler_adds (requestHandler : RequestHandler) (req : Request)
    (s s' : Db) (run : Run) :
  requestHandler req s = (s', run) ->
  exists added,
    asyncHandler requestHandler req s = (s', events run ++ added)
    ∧ (length added <= 1)%nat
    ∧ (forall r, Write r ∉ added)
    ∧ (forall error,
         Next error ∈ added <-> completion run = Returns (Some (Rejected error)))
    ∧ (forall error, Uncaught error ∈ added <-> completion run = Throws error).
Proof.
  intros Hrun. unfold asyncHandler. rewrite Hrun.
  eexists. split; [reflexivity|].
  destruct (completion run) as [e|[[| |e]|]]; simpl;
    (split; [lia|]); (split; [|split]); intros x;
    rewrite ?list_elem_of_singleton, ?elem_of_nil;
    try (split; intros H; by simplify_eq); try (intros H; by simplify_eq).
Qed.

Lemma asyncHandler_adds_witness :
  asyncHandler throwing_handler blank_request empty_db
  = (empty_db, [Uncaught (LibraryError "TypeError")]).
Proof.
  destruct (asyncHandler_adds throwing_handler blank_request empty_db empty_db
              {| events := []; completion := Throws (LibraryError "TypeError") |}
              eq_refl) as (added & Hrun & _ & _ & _ & Hu).
  rewrite Hrun. simpl. f_equal.
  pose proof (proj2 (Hu (LibraryError "TypeError")) eq_refl) as Hin.
  revert Hrun. vm_compute. by intros [= <-].
Defined.

(** ** The listing pipeline *)

(** The pipeline [getVideos] hands to the plugin starts with at most two
    filters, the text filter first, and goes on with the same six stages
    for every request.  The channel filter is there exactly when a
    channel id is given, the text filter exactly when the query is truthy
    (not for an empty string).  The sort comes last; it is ascending
    exactly when [sortType] is the string [inc], descending otherwise, and
    the sort key is [createdAt] when [sortBy] is missing or empty. *)
Theorem getVideos_pipeline_shape (q : Query) :
  exists filters key direction,
    Handler.getVideos_pipeline q
    = filters ++ [LookupViewsCount; AddViewsCount; LookupPublisher;
                  UnwindPublisher; ProjectListing; Sort key direction]
    ∧ filters
      = (if Js.truthy (q_query q) then [MatchText (q_query q)] else [])
        ++ (match q_channelId q with Some c => [MatchPublisher c] | None => [] end)
    ∧ (forall c, MatchPublisher c ∈ Handler.getVideos_pipeline q
                 <-> q_channelId q = Some c)
    ∧ (forall t, MatchText t ∈ Handler.getVideos_pipeline q
                 <-> t = q_query q ∧ Js.truthy t = true)
    ∧ (direction = 1%Z <-> q_sortType q = Js.Str (Js.lit "inc"))
    ∧ (direction = 1%Z ∨ direction = (-1)%Z)
    ∧ (Js.truthy (q_sortBy q) = false -> key = Js.lit "createdAt").
Proof.
  eexists _, _, _. unfold Handler.getVideos_pipeline.
  split; [by rewrite app_assoc|]. split; [reflexivity|].
  split; [|split; [|split; [|split]]].
  - intros c. rewrite !elem_of_app. split.
    + intros [H|[H|H]].
      * destruct (Js.truthy (q_query q)); [|by apply elem_of_nil in H].
        by apply list_elem_of_singleton in H.
      * destruct (q_channelId q) as [c'|]; [|by apply elem_of_nil in H].
        apply list_elem_of_singleton in H. by simplify_eq.
      * rewrite !elem_of_cons, elem_of_nil in H.
        repeat (destruct H as [H|H]); done.
    + intros ->. right. left. apply list_elem_of_here.
  - intros t. rewrite !elem_of_app. split.
    + intros [H|[H|H]].
      * destruct (Js.truthy (q_query q)) eqn:Hq; [|by apply elem_of_nil in H].
        apply list_elem_of_singleton in H. by simplify_eq.
      * destruct (q_channelId q) as [c'|]; [|by apply elem_of_nil in H].
        by apply list_elem_of_singleton in H.
      * rewrite !elem_of_cons, elem_of_nil in H.
        repeat (destruct H as [H|H]); done.
    + intros [-> Ht]. left. rewrite Ht. apply list_elem_of_here.
  - unfold Js.strict_eq_lit. destruct (q_sortType q) as [|u|l|]; try done.
    case_bool_decide; split; intros; by simplify_eq.
  - destruct (Js.strict_eq_lit _ _); auto.
  - unfold Js.key_or. by intros ->.
Qed.

(** ** [removeFields] *)

Lemma foldl_delete_lookup {V} (fields : list string) (o : gmap string V)
    (key : string) :
  foldl (fun userObject field => delete field userObject) o fields !! key
  = if decide (key ∈ fields) then None else o !! key.
Proof.
  revert o. induction fields as [|f fields IH]; intros o.
  - simpl. destruct (decide (key ∈ [])) as [H|]; [by apply elem_of_nil in H|done].
  - simpl foldl. rewrite IH.
    destruct (decide (key ∈ fields)) as [Hin|Hnin];
      destruct (decide (key ∈ f :: fields)) as [Hin'|Hnin']; try done.
    + exfalso. apply Hnin'. by apply list_elem_of_further.
    + apply elem_of_cons in Hin' as [->|?]; [apply lookup_delete_eq|done].
    + apply lookup_delete_ne. intros ->. apply Hnin', list_elem_of_here.
Qed.

(** [removeFields] answers with a copy of the user object in which every
    listed key is gone and every other key has its value; names that are
    no key of the object and names listed twice do no harm.  With
    [password] and [refreshToken] listed, neither is in the answer. *)
Theorem removeFields_lookup (d : UserModel.document) (fields : list string)
    (key : string) :
  (key ∈ fields -> UserObject.removeFields d fields !! key = None)
  ∧ (key ∉ fields ->
     UserObject.removeFields d fields !! key = UserObject.toObject d !! key)
  ∧ UserObject.removeFields d [] = UserObject.toObject d
  ∧ UserObject.removeFields d ["password"; "refreshToken"]%string
      !! "password"%string = None
  ∧ UserObject.removeFields d ["password"; "refreshToken"]%string
      !! "username"%string
    = Some (UserObject.VString (UserDoc.username (UserModel.fields d))).
Proof.
  unfold UserObject.removeFields.
  split; [|split; [|split; [done|split]]].
  - intros Hin. rewrite foldl_delete_lookup. by destruct (decide _).
  - intros Hnin. rewrite foldl_delete_lookup. by destruct (decide _).
  - rewrite foldl_delete_lookup. destruct (decide _) as [|Hn]; [done|].
    exfalso. apply Hn, list_elem_of_here.
  - rewrite foldl_delete_lookup. destruct (decide _) as [Hin|_].
    { rewrite !elem_of_cons, elem_of_nil in Hin. by destruct Hin as [?|[?|[]]]. }
    unfold UserObject.toObject.
    destruct (UserDoc.coverImage _), (UserDoc.refreshToken _); simpl;
      by simplify_map_eq.
Qed.

Lemma removeFields_lookup_witness :
  UserObject.removeFields
    {| UserModel._id := 5; UserModel.fields := bob; UserModel.isNew := false;
       UserModel.modifiedPaths := ∅ |}
    ["password"; "refreshToken"]%string !! "refreshToken"%string = None
  ∧ UserObject.removeFields
      {| UserModel._id := 5; UserModel.fields := bob; UserModel.isNew := false;
         UserModel.modifiedPaths := ∅ |}
      ["password"; "refreshToken"]%string !! "email"%string
    = Some (UserObject.VString "bob@example.com").
Proof.
  split.
  - refine (proj1 (removeFields_lookup _ _ _) _).
    rewrite !elem_of_cons. tauto.
  - rewrite (proj1 (proj2 (removeFields_lookup _ _ "email"%string))).
    + reflexivity.
    + rewrite !elem_of_cons, elem_of_nil. intros [?|[?|[]]]; done.
Defined.

Lemma getVideos_pipeline_shape_witness :
  Handler.getVideos_pipeline query_sorted
  = [MatchText (Js.Str (Js.lit "cats")); MatchPublisher 1;
     LookupViewsCount; AddViewsCount; LookupPublisher; UnwindPublisher;
     ProjectListing; Sort (Js.lit "title") 1].
Proof.
  destruct (getVideos_pipeline_shape query_sorted)
    as (filters & key & direction & Hp & Hf & _ & _ & Hd & _ & _).
  rewrite Hp, Hf. simpl.
  assert (direction = 1%Z) as -> by (by apply Hd).
  revert Hp. rewrite Hf. vm_compute. by intros [= <-].
Defined.

(** ** A failed replacement *)

(** When the upload of the new video file fails, the old file has
    already been deleted: [changeVideoFile] raises its 500 error and the
    stored video still names the old asset, which is no longer in the
    storage. *)
Theorem changeVideoFile_dangling (env : Env) (req : Request) (s : Db)
    (id : Id) (v : VideoDoc.t) (path : string) :
  params_videoId req = Some id ->
  present (file_path req) = Some path ->
  videos s !! id = Some v ->
  destroy_ok env (Image.publicId (VideoDoc.videoFile v)) = true ->
  upload env path = None ->
  exists s',
    VideoController.changeVideoFile env req s
    = (s', [Next (ApiError 500
             "Something went wrong while uploading the new video file in cloudinary")])
    ∧ videos s' !! id = Some v
    ∧ Image.publicId (VideoDoc.videoFile v) ∉ assets s'.
Proof.
  intros Hid Hpath Hv Hd Hu. unfold VideoController.changeVideoFile.
  rewrite wrapped_async. unfold Handler.changeVideoFile. rewrite Hid, Hpath.
  unfold bind, Video.findById, gets, deleteFromCloudinary, uploadOnCloudinary.
  rewrite Hv. simpl. rewrite Hd. simpl. rewrite Hu.
  eexists. split; [reflexivity|]. simpl. split; [exact Hv|].
  rewrite elem_of_difference, elem_of_singleton. tauto.
Qed.

Lemma changeVideoFile_dangling_witness :
  exists s',
    fst (VideoController.changeVideoFile env_upload_fails (req_video (Some 1)) db1) = s'
    ∧ videos s' !! 2 = Some video_a
    ∧ "clip.mp4"%string ∉ assets s'.
Proof.
  destruct (changeVideoFile_dangling env_upload_fails (req_video (Some 1)) db1 2
              video_a "new.mp4" eq_refl eq_refl eq_refl eq_refl eq_refl)
    as (s' & Hrun & Hv & Ha).
  exists s'. rewrite Hrun. auto.
Defined.
